(** * Storefront product page and catalog normalizer

    A shallow embedding of [src/pages/ProductsPage.tsx]: the filter/sort
    effect of the products page (lines 62-102) and the [Deno.serve] handler
    that reshapes the vendor catalog (lines 246-325).

    Conventions of the embedding:
    - a JavaScript [number] is an IEEE-754 double, here a primitive [float];
      [<], [<=] are [PrimFloat.ltb], [PrimFloat.leb], and [>], [>=] are the
      same with the operands swapped (all four are false on NaN);
    - a JavaScript string is a [string] (its characters in a fixed
      one-to-one encoding); [===] on strings is [String.eqb]; the engine's
      case mapping, which knows every letter of Unicode, is taken from the
      surroundings like [parseFloat], not written out;
    - arrays are lists; an array that the code mutates or copies lives in a
      store of arrays and is named by its address;
    - object literals live in a store of objects and are named by their
      address, because [Set] compares objects by identity. *)

From Stdlib Require Import List String Ascii Bool Arith ZArith Lia.
From Stdlib Require Import Floats Permutation.
Import ListNotations.

Local Open Scope string_scope.
Local Open Scope list_scope.

(** ** JavaScript built-ins used by the page and by the handler *)

Module Js.

(** [a > b] and [a >= b] on numbers. *)
Definition gtb (a b : float) : bool := PrimFloat.ltb b a.
Definition geb (a b : float) : bool := PrimFloat.leb b a.

(** [Array.prototype.includes] on an array of strings. *)
Definition includes (l : list string) (x : string) : bool :=
  existsb (String.eqb x) l.

(** [Array.prototype.some]. *)
Definition some {A} (f : A -> bool) (l : list A) : bool := existsb f l.

(** [x || d] where [x] is a string or [undefined]: the empty string and
    [undefined] are the falsy values of that type. *)
Definition or_else (x : option string) (d : string) : string :=
  match x with
  | Some s => if String.eqb s "" then d else s
  | None => d
  end.

(** [[...new Set(l)]]: the elements of [l] in the order of their first
    occurrence, compared with [eqb] (SameValueZero: string equality on
    strings, identity on objects). *)
Definition set_add {A} (eqb : A -> A -> bool) (acc : list A) (x : A) : list A :=
  if existsb (eqb x) acc then acc else acc ++ [x].

Definition newSet {A} (eqb : A -> A -> bool) (l : list A) : list A :=
  fold_left (set_add eqb) l [].

(** [Array.prototype.sort(comparefn)].  The language fixes the result for
    a consistent comparator: the elements in ascending order of the
    comparator, elements that compare equal in their original order (the
    sort is stable).  A NaN returned by the comparator counts as [+0].
    Inserting each element, from the right, in front of the first element
    it does not compare greater than computes exactly that order. *)
Fixpoint insert {A} (comparefn : A -> A -> float) (x : A) (l : list A) : list A :=
  match l with
  | [] => [x]
  | y :: l' =>
      if gtb (comparefn x y) 0 then y :: insert comparefn x l' else x :: l
  end.

Definition sort {A} (comparefn : A -> A -> float) (l : list A) : list A :=
  fold_right (insert comparefn) [] l.

End Js.

(** ** The storefront product shape ([FormattedProduct], lines 230-244) *)

Record Color := { color_name : string; color_value : string }.

Record FormattedProduct := {
  product_id : string;
  product_name : string;
  price : float;
  description : string;
  imageUrl : string;
  imageUrls : list string;
  category : string;
  tags : list string;
  sizes : list string;
  colors : list Color;
  inStock : bool;
  isNew : bool;
  isLimited : bool
}.

(** ** The products page: the filter/sort effect (lines 62-102) *)

Module Page.

(** [Product] is imported from [../types]; the page fills it with the
    JSON the normalizer sends, that is with [FormattedProduct]s. *)
Definition Product := FormattedProduct.

Record ActiveFilters := {
  categories : list string;
  prices : list string;
  af_sizes : list string
}.

(** The state after [clearAllFilters] (lines 135-141). *)
Definition noFilters : ActiveFilters :=
  {| categories := []; prices := []; af_sizes := [] |}.

(** The three callbacks passed to [filter] (lines 66-68, 72-78, 82-84). *)
Definition categoryPredicate (af : ActiveFilters) (product : Product) : bool :=
  Js.includes (categories af) (category product).

Definition pricePredicate (af : ActiveFilters) (product : Product) : bool :=
  if Js.includes (prices af) "under-50" && PrimFloat.ltb (price product) 50 then true
  else if Js.includes (prices af) "50-100" && Js.geb (price product) 50
          && PrimFloat.leb (price product) 100 then true
  else if Js.includes (prices af) "100-150" && Js.gtb (price product) 100
          && PrimFloat.leb (price product) 150 then true
  else if Js.includes (prices af) "over-150" && Js.gtb (price product) 150 then true
  else false.

Definition sizePredicate (af : ActiveFilters) (product : Product) : bool :=
  Js.some (fun size => Js.includes (af_sizes af) size) (sizes product).

(** The three guarded filter statements (lines 65-85). *)
Definition filterCategories (af : ActiveFilters) (result : list Product) : list Product :=
  if (0 <? List.length (categories af))%nat then filter (categoryPredicate af) result else result.

Definition filterPrices (af : ActiveFilters) (result : list Product) : list Product :=
  if (0 <? List.length (prices af))%nat then filter (pricePredicate af) result else result.

Definition filterSizes (af : ActiveFilters) (result : list Product) : list Product :=
  if (0 <? List.length (af_sizes af))%nat then filter (sizePredicate af) result else result.

Definition applyFilters (af : ActiveFilters) (products : list Product) : list Product :=
  filterSizes af (filterPrices af (filterCategories af products)).

(** The comparators of the [switch] (lines 89, 92, 95). *)
Definition priceLow (a b : Product) : float := PrimFloat.sub (price a) (price b).
Definition priceHigh (a b : Product) : float := PrimFloat.sub (price b) (price a).
Definition newest (a b : Product) : float :=
  if Bool.eqb (isNew a) (isNew b) then 0%float
  else if isNew a then (-1)%float else 1%float.

Definition applySort (sortBy : string) (result : list Product) : list Product :=
  if String.eqb sortBy "price-low" then Js.sort priceLow result
  else if String.eqb sortBy "price-high" then Js.sort priceHigh result
  else if String.eqb sortBy "newest" then Js.sort newest result
  else result.

(** The value handed to [setFilteredProducts], as a function of the
    contents of [products], the filters and the sort key. *)
Definition filterSort (products : list Product) (af : ActiveFilters) (sortBy : string)
  : list Product :=
  applySort sortBy (applyFilters af products).

(** *** The effect on the store of arrays

    [products] is the array held in the component's state.  The effect
    copies it ([[...products]]), each [filter] allocates a new array, and
    [sort] reorders the array [result] names at that point, in place. *)
Definition addr := nat.
Definition Store := list (list Product).

Definition load (a : addr) (s : Store) : list Product := nth a s [].

(** Overwrites the array at [a]; the effect only writes at addresses it
    has allocated. *)

Fixpoint store (a : addr) (l : list Product) (s : Store) : Store :=
  match s, a with
  | [], _ => []
  | _ :: s', O => l :: s'
  | x :: s', S a' => x :: store a' l s'
  end.

Definition alloc (l : list Product) (s : Store) : addr * Store :=
  (List.length s, s ++ [l]).

Definition spread (a : addr) (s : Store) : addr * Store := alloc (load a s) s.

Definition arrayFilter (f : Product -> bool) (a : addr) (s : Store) : addr * Store :=
  alloc (filter f (load a s)) s.

Definition arraySort (comparefn : Product -> Product -> float) (a : addr) (s : Store)
  : Store :=
  store a (Js.sort comparefn (load a s)) s.

Definition effect (products : addr) (af : ActiveFilters) (sortBy : string) (s0 : Store)
  : addr * Store :=
  let '(result, s1) := spread products s0 in
  let '(result, s2) :=
    if (0 <? List.length (categories af))%nat
    then arrayFilter (categoryPredicate af) result s1 else (result, s1) in
  let '(result, s3) :=
    if (0 <? List.length (prices af))%nat
    then arrayFilter (pricePredicate af) result s2 else (result, s2) in
  let '(result, s4) :=
    if (0 <? List.length (af_sizes af))%nat
    then arrayFilter (sizePredicate af) result s3 else (result, s3) in
  let s5 :=
    if String.eqb sortBy "price-low" then arraySort priceLow result s4
    else if String.eqb sortBy "price-high" then arraySort priceHigh result s4
    else if String.eqb sortBy "newest" then arraySort newest result s4
    else s4 in
  (result, s5).

End Page.

(** ** The catalog normalizer: the [Deno.serve] handler (lines 246-325) *)

Module Normalizer.

(** The vendor shape ([PrintfulProduct], lines 214-228). *)
Record PreviewFile := { preview_url : string }.

Record VariantOption := { option_id : string; option_value : string }.

Record Variant := {
  variant_id : string;
  retail_price : string;
  files : list PreviewFile;
  options : list VariantOption
}.

Record PrintfulProduct := {
  printful_id : string;
  printful_name : string;
  variants : list Variant
}.

(** What a [throw] carries: an [Error] built by the handler, or the
    [TypeError] the engine raises when a property is read on [undefined]. *)
Inductive Exn :=
| Error (message : string)
| TypeError (message : string).

Definition message (e : Exn) : string :=
  match e with Error m => m | TypeError m => m end.

Inductive Result (A : Type) :=
| Ok (a : A)
| Throw (e : Exn).
Arguments Ok {A} a.
Arguments Throw {A} e.

(** The outbound request and what [fetch] hands back: [payload] is the
    outcome of [response.json()] followed by [data.result]. *)
Record FetchRequest := { url : string; request_headers : list (string * string) }.

Record FetchResponse := {
  ok : bool;
  statusText : string;
  payload : Result (list PrintfulProduct)
}.

(** What the handler reads from its surroundings: the process environment,
    the network, and the engine's [parseFloat] and
    [String.prototype.toLowerCase]. *)
Record Deno := {
  env_get : string -> option string;
  network : FetchRequest -> Result FetchResponse;
  parseFloat : string -> float;
  toLowerCase : string -> string
}.

(** The response: the body is the value given to [JSON.stringify], or
    [null]. *)
Inductive Body :=
| NoBody
| JsonProducts (formattedProducts : list FormattedProduct)
| JsonError (error : string).

Record Response := {
  status : nat;
  headers : list (string * string);
  body : Body
}.

(** What one invocation changes: the outbound calls made so far, and the
    objects allocated so far (an object's reference is its index). *)
Record World := { outbound : list FetchRequest; objects : list Color }.

Definition Act (A : Type) : Type := World -> Result A * World.

Definition ret {A} (a : A) : Act A := fun w => (Ok a, w).

Definition throw {A} (e : Exn) : Act A := fun w => (Throw e, w).

Definition bind {A B} (m : Act A) (k : A -> Act B) : Act B :=
  fun w => match m w with
           | (Ok a, w') => k a w'
           | (Throw e, w') => (Throw e, w')
           end.

Definition catch {A} (m : Act A) (handler : Exn -> Act A) : Act A :=
  fun w => match m w with
           | (Ok a, w') => (Ok a, w')
           | (Throw e, w') => handler e w'
           end.

Notation "x <- m ;; k" := (bind m (fun x => k))
  (at level 100, m at next level, right associativity).

(** [l.map(f)] for a callback that may allocate or throw. *)
Fixpoint mapA {A B} (f : A -> Act B) (l : list A) : Act (list B) :=
  match l with
  | [] => ret []
  | x :: l' => y <- f x ;; ys <- mapA f l' ;; ret (y :: ys)
  end.

(** [await fetch(...)]. *)
Definition fetch (d : Deno) (r : FetchRequest) : Act FetchResponse :=
  fun w =>
    let w' := {| outbound := outbound w ++ [r]; objects := objects w |} in
    match network d r with
    | Ok response => (Ok response, w')
    | Throw e => (Throw e, w')
    end.

(** An object literal [{ name, value }]: a fresh reference. *)
Definition ref := nat.

Definition newObject (c : Color) : Act ref :=
  fun w => (Ok (List.length (objects w)),
            {| outbound := outbound w; objects := objects w ++ [c] |}).

Definition deref (w : World) (r : ref) : Color :=
  nth r (objects w) {| color_name := ""; color_value := "" |}.

Definition corsHeaders : list (string * string) :=
  [ ("Access-Control-Allow-Origin", "*");
    ("Access-Control-Allow-Methods", "GET, OPTIONS");
    ("Access-Control-Allow-Headers", "Content-Type, Authorization") ].

(** [v.options.find(o => o.id === key)]. *)
Definition findOption (key : string) (v : Variant) : option VariantOption :=
  find (fun o => String.eqb (option_id o) key) (options v).

(** Lines 273-275. *)
Definition sizeOf (v : Variant) : string :=
  Js.or_else (option_map option_value (findOption "size" v)) "One Size".

Definition uniqueSizes (product : PrintfulProduct) : list string :=
  Js.newSet String.eqb (map sizeOf (variants product)).

(** Lines 277-283.  The callback returns a new object or [null];
    [filter(Boolean)] drops the [null]s (an object is truthy); the [Set]
    compares the objects that remain by reference.  No object is written
    after its creation, so [uniqueColors] hands back the colors the
    references point to, as the serialised response shows them. *)
Definition colorOf (d : Deno) (v : Variant) : Act (option ref) :=
  match findOption "color" v with
  | Some colorOption =>
      r <- newObject {| color_name := option_value colorOption;
                        color_value := toLowerCase d (option_value colorOption) |} ;;
      ret (Some r)
  | None => ret None
  end.

Definition filterBoolean (l : list (option ref)) : list ref :=
  flat_map (fun x => match x with Some r => [r] | None => [] end) l.

Definition uniqueColors (d : Deno) (product : PrintfulProduct) : Act (list Color) :=
  mapped <- mapA (colorOf d) (variants product) ;;
  let refs := Js.newSet Nat.eqb (filterBoolean mapped) in
  fun w => (Ok (map (deref w) refs), w).

(** [x.p] where [x] may be [undefined]. *)
Definition readProperty {A B} (p : string) (f : A -> B) (x : option A) : Act B :=
  match x with
  | Some a => ret (f a)
  | None => throw (TypeError
      ("Cannot read properties of undefined (reading '" ++ p ++ "')")%string)
  end.

(** [v.files[0].preview_url]. *)
Definition firstPreview (v : Variant) : Act string :=
  readProperty "preview_url" preview_url (nth_error (files v) 0).

(** The callback of [products.map] (lines 271-300).  [product.id] is
    declared a string, on which [toString()] is the identity. *)
Definition formatProduct (d : Deno) (product : PrintfulProduct) : Act FormattedProduct :=
  let mainVariant := nth_error (variants product) 0 in
  let uniqueSizes := uniqueSizes product in
  uniqueColors <- uniqueColors d product ;;
  retail_price <- readProperty "retail_price" retail_price mainVariant ;;
  files <- readProperty "files" files mainVariant ;;
  imageUrl <- readProperty "preview_url" preview_url (nth_error files 0) ;;
  imageUrls <- mapA firstPreview (variants product) ;;
  ret {| product_id := printful_id product;
         product_name := printful_name product;
         price := parseFloat d retail_price;
         description := printful_name product;
         imageUrl := imageUrl;
         imageUrls := imageUrls;
         category := "t-shirts";
         tags := ["printful"];
         sizes := uniqueSizes;
         colors := uniqueColors;
         inStock := true;
         isNew := false;
         isLimited := false |}.

(** The body of the [try] (lines 252-310). *)
Definition tryBody (d : Deno) : Act Response :=
  match env_get d "PRINTFUL_API_KEY" with
  | None => throw (Error "Printful API key not configured")
  | Some printfulApiKey =>
      if String.eqb printfulApiKey ""
      then throw (Error "Printful API key not configured")
      else
        response <- fetch d {| url := "https://api.printful.com/store/products";
                               request_headers :=
                                 [("Authorization", ("Bearer " ++ printfulApiKey)%string)] |} ;;
        if negb (ok response)
        then throw (Error ("Printful API error: " ++ statusText response)%string)
        else
          products <- (fun w => (payload response, w)) ;;
          formattedProducts <- mapA (formatProduct d) products ;;
          ret {| status := 200;
                 headers := ("Content-Type", "application/json") :: corsHeaders;
                 body := JsonProducts formattedProducts |}
  end.

(** The handler (lines 246-325); [method] is [req.method]. *)
Definition serve (d : Deno) (method : string) : Act Response :=
  if String.eqb method "OPTIONS"
  then ret {| status := 200; headers := corsHeaders; body := NoBody |}
  else catch (tryBody d)
         (fun error =>
            ret {| status := 500;
                   headers := ("Content-Type", "application/json") :: corsHeaders;
                   body := JsonError (message error) |}).

(** A fresh invocation: no outbound call yet, no object yet. *)
Definition start : World := {| outbound := []; objects := [] |}.

End Normalizer.

(** ** The specification's own wording, for comparison with the code *)

Module Spec.

(** The price bands: under-50 is price < 50; 50-100 is 50 <= price <= 100;
    100-150 is 100 < price <= 150; over-150 is price > 150. *)
Definition bands : list string := ["under-50"; "50-100"; "100-150"; "over-150"].

Definition inBand (band : string) (p : float) : bool :=
  if String.eqb band "under-50" then PrimFloat.ltb p 50
  else if String.eqb band "50-100" then PrimFloat.leb 50 p && PrimFloat.leb p 100
  else if String.eqb band "100-150" then PrimFloat.ltb 100 p && PrimFloat.leb p 150
  else if String.eqb band "over-150" then PrimFloat.ltb 150 p
  else false.

(** The filter selection that chooses the given price bands only. *)
Definition choosing (chosen : list string) : Page.ActiveFilters :=
  {| Page.categories := []; Page.prices := chosen; Page.af_sizes := [] |}.

(** A stable partition: the elements that satisfy [f] first, both groups
    in their original order. *)
Definition stablePartition {A} (f : A -> bool) (l : list A) : list A :=
  filter f l ++ filter (fun x => negb (f x)) l.

(** [sizes]: the distinct values of the size option across the variants,
    the sentinel standing in for a variant that has no size option. *)
Definition sizeOf (v : Normalizer.Variant) : string :=
  match Normalizer.findOption "size" v with
  | Some o => Normalizer.option_value o
  | None => "One Size"
  end.

Definition sizes (product : Normalizer.PrintfulProduct) : list string :=
  Js.newSet String.eqb (map sizeOf (Normalizer.variants product)).

(** [colors]: the distinct color names across the variants, each paired
    with its lowercased value; a variant without a color option gives no
    entry. *)
Definition colorEntry (d : Normalizer.Deno) (v : Normalizer.Variant) : list Color :=
  match Normalizer.findOption "color" v with
  | Some o => [{| color_name := Normalizer.option_value o;
                  color_value := Normalizer.toLowerCase d (Normalizer.option_value o) |}]
  | None => []
  end.

Definition color_eqb (a b : Color) : bool :=
  String.eqb (color_name a) (color_name b)
  && String.eqb (color_value a) (color_value b).

Definition colors (d : Normalizer.Deno) (product : Normalizer.PrintfulProduct)
  : list Color :=
  Js.newSet color_eqb (flat_map (colorEntry d) (Normalizer.variants product)).

(** The precondition under which the mapping is total: at least one
    variant, and at least one preview file in every variant. *)
Definition wellFormed (product : Normalizer.PrintfulProduct) : bool :=
  negb (Nat.eqb (List.length (Normalizer.variants product)) 0)
  && forallb (fun v => negb (Nat.eqb (List.length (Normalizer.files v)) 0))
       (Normalizer.variants product).

End Spec.

(** ** Auxiliary definitions used by the proofs *)

Module Boundary.

(** The boundaries, as specification floats. *)
Definition c50 : spec_float := Eval vm_compute in Prim2SF 50.
Definition c100 : spec_float := Eval vm_compute in Prim2SF 100.
Definition c150 : spec_float := Eval vm_compute in Prim2SF 150.

Definition isLt (c : option comparison) : bool :=
  match c with Some Lt => true | _ => false end.
Definition isLe (c : option comparison) : bool :=
  match c with Some Lt | Some Eq => true | _ => false end.
Definition isGt (c : option comparison) : bool :=
  match c with Some Gt => true | _ => false end.
Definition isGe (c : option comparison) : bool :=
  match c with Some Gt | Some Eq => true | _ => false end.

(** Where a double that is not NaN lies among 50, 100 and 150. *)
Inductive Position : option comparison -> option comparison -> option comparison -> Prop :=
| Below50 : Position (Some Lt) (Some Lt) (Some Lt)
| At50 : Position (Some Eq) (Some Lt) (Some Lt)
| Between50_100 : Position (Some Gt) (Some Lt) (Some Lt)
| At100 : Position (Some Gt) (Some Eq) (Some Lt)
| Between100_150 : Position (Some Gt) (Some Gt) (Some Lt)
| At150 : Position (Some Gt) (Some Gt) (Some Eq)
| Above150 : Position (Some Gt) (Some Gt) (Some Gt).

End Boundary.

(** What the steps of the effect maintain: [result] names an array
    allocated by the effect, with the given contents, and every array of
    the store [s0] the effect started from is as it was. *)
Module Frame.

Definition Inv (s0 : Page.Store) (contents : list Page.Product)
  (result : Page.addr) (s : Page.Store) : Prop :=
  List.length s0 <= result < List.length s
  /\ Page.load result s = contents
  /\ forall a, a < List.length s0 -> Page.load a s = Page.load a s0.

End Frame.

(** What the mapping yields for a product it accepts, written without
    the store of objects. *)
Module Mapped.

Import Normalizer.

Definition previewOf (v : Variant) : string :=
  match files v with f :: _ => preview_url f | [] => "" end.

Definition mainVariantOf (product : PrintfulProduct) : Variant :=
  nth 0 (variants product)
    {| variant_id := ""; retail_price := ""; files := []; options := [] |}.

Definition colorsOf (d : Deno) (product : PrintfulProduct) : list Color :=
  flat_map (Spec.colorEntry d) (variants product).

Definition mappedProduct (d : Deno) (product : PrintfulProduct) : FormattedProduct :=
  {| product_id := printful_id product;
     product_name := printful_name product;
     price := parseFloat d (retail_price (mainVariantOf product));
     description := printful_name product;
     imageUrl := previewOf (mainVariantOf product);
     imageUrls := map previewOf (variants product);
     category := "t-shirts";
     tags := ["printful"];
     sizes := uniqueSizes product;
     colors := colorsOf d product;
     inStock := true;
     isNew := false;
     isLimited := false |}.

(** The [TypeError] of a read on [undefined]. *)
Definition undefinedRead (p : string) : Exn :=
  TypeError ("Cannot read properties of undefined (reading '" ++ p ++ "')")%string.

Definition hasFile (v : Variant) : bool := negb (Nat.eqb (List.length (files v)) 0).

(** What the mapping throws for a product it rejects. *)
Definition formatError (product : PrintfulProduct) : Exn :=
  match variants product with
  | [] => undefinedRead "retail_price"
  | _ :: _ => undefinedRead "preview_url"
  end.

(** The world after the objects [cs] have been allocated. *)
Definition allocated (w : World) (cs : list Color) : World :=
  {| outbound := outbound w; objects := objects w ++ cs |}.

End Mapped.

(** Sample data. *)
Module Sample.

Definition tee (p : float) (new : bool) : Page.Product :=
  {| product_id := "1"; product_name := "Tee"; price := p; description := "Tee";
     imageUrl := "a.png"; imageUrls := ["a.png"]; category := "t-shirts";
     tags := ["printful"]; sizes := ["M"]; colors := [];
     inStock := true; isNew := new; isLimited := false |}.

Definition variant (color size : option string) (urls : list string)
  : Normalizer.Variant :=
  {| Normalizer.variant_id := "v";
     Normalizer.retail_price := "19.50";
     Normalizer.files := map (fun u => {| Normalizer.preview_url := u |}) urls;
     Normalizer.options :=
       match size with
       | Some s => [{| Normalizer.option_id := "size"; Normalizer.option_value := s |}]
       | None => []
       end ++
       match color with
       | Some c => [{| Normalizer.option_id := "color"; Normalizer.option_value := c |}]
       | None => []
       end |}.

Definition vendorProduct (vs : list Normalizer.Variant) : Normalizer.PrintfulProduct :=
  {| Normalizer.printful_id := "42"; Normalizer.printful_name := "Tee";
     Normalizer.variants := vs |}.

(** Two variants of the same color. *)
Definition twoReds : Normalizer.PrintfulProduct :=
  vendorProduct [variant (Some "Red") (Some "M") ["a.png"];
                 variant (Some "Red") (Some "L") ["b.png"]].

(** One variant whose size option is the empty string. *)
Definition emptySize : Normalizer.PrintfulProduct :=
  vendorProduct [variant None (Some "") ["a.png"]].

(** One variant without a size option, one with. *)
Definition mixedSizes : Normalizer.PrintfulProduct :=
  vendorProduct [variant None None ["a.png"]; variant None (Some "M") ["b.png"]].

(** No variant at all. *)
Definition noVariant : Normalizer.PrintfulProduct := vendorProduct [].

(** The entry the mapping builds for the color "Red". *)
Definition red (d : Normalizer.Deno) : Color :=
  {| color_name := "Red"; color_value := Normalizer.toLowerCase d "Red" |}.

(** A stand-in for the engine's [toLowerCase] on the samples, whose only
    letters are A-Z and a-z. *)
Definition lower_ascii (c : ascii) : ascii :=
  let n := nat_of_ascii c in
  if (65 <=? n)%nat && (n <=? 90)%nat then ascii_of_nat (n + 32) else c.

Fixpoint lowerAscii (s : string) : string :=
  match s with
  | EmptyString => EmptyString
  | String c s' => String (lower_ascii c) (lowerAscii s')
  end.

(** Surroundings without the credential, and with it: the vendor then
    answers with [twoReds] followed by [noVariant].  The sample prices all
    read "19.50", which this stand-in for [parseFloat] turns into 19.5. *)
Definition noKey : Normalizer.Deno :=
  {| Normalizer.env_get := fun _ => None;
     Normalizer.network := fun _ => Normalizer.Throw (Normalizer.TypeError "unreachable");
     Normalizer.parseFloat := fun _ => 19.5%float;
     Normalizer.toLowerCase := lowerAscii |}.

Definition vendorAnswer : Normalizer.FetchResponse :=
  {| Normalizer.ok := true; Normalizer.statusText := "OK";
     Normalizer.payload := Normalizer.Ok [twoReds; noVariant] |}.

Definition withKey : Normalizer.Deno :=
  {| Normalizer.env_get :=
       fun name => if String.eqb name "PRINTFUL_API_KEY" then Some "secret" else None;
     Normalizer.network := fun _ => Normalizer.Ok vendorAnswer;
     Normalizer.parseFloat := fun _ => 19.5%float;
     Normalizer.toLowerCase := lowerAscii |}.

End Sample.

(** ** The products page: state, handlers and views (lines 13-60, 104-141,
    164-203) *)

Module Controls.

Import Page.

(** The component's state (lines 18-34). *)
Record State := {
  products : list Product;
  loading : bool;
  error : option string;
  filteredProducts : list Product;
  filterOpen : bool;
  activeFilters : ActiveFilters;
  sortBy : string
}.

(** The initial values; [categoryParam] is [searchParams.get('category')],
    a string or [null], and the empty string is falsy. *)
Definition initialFilters (categoryParam : option string) : ActiveFilters :=
  {| categories := match categoryParam with
                   | Some c => if String.eqb c "" then [] else [c]
                   | None => []
                   end;
     prices := [];
     af_sizes := [] |}.

Definition initial (categoryParam : option string) : State :=
  {| products := [];
     loading := true;
     error := None;
     filteredProducts := [];
     filterOpen := false;
     activeFilters := initialFilters categoryParam;
     sortBy := "newest" |}.

(** What the page's [fetch] comes to: a rejection, or a response whose
    [json()] yields the products or rejects. *)
Record PageResponse := { ok : bool; json : option (list Product) }.

Inductive FetchOutcome :=
| Rejected
| Responded (response : PageResponse).

(** [fetchProducts] (lines 37-56), as the state it leaves once settled. *)
Definition fetchProducts (net : FetchOutcome) (st : State) : State :=
  let failed (st : State) : State :=
    {| products := products st;
       loading := loading st;
       error := Some "Failed to load products. Please try again later.";
       filteredProducts := filteredProducts st;
       filterOpen := filterOpen st;
       activeFilters := activeFilters st;
       sortBy := sortBy st |} in
  let st1 : State :=
    {| products := products st;
       loading := true;
       error := error st;
       filteredProducts := filteredProducts st;
       filterOpen := filterOpen st;
       activeFilters := activeFilters st;
       sortBy := sortBy st |} in
  let st2 : State :=
    match net with
    | Rejected => failed st1
    | Responded response =>
        if negb (ok response) then failed st1
        else match json response with
             | None => failed st1
             | Some data =>
                 {| products := data;
                    loading := loading st1;
                    error := None;
                    filteredProducts := filteredProducts st1;
                    filterOpen := filterOpen st1;
                    activeFilters := activeFilters st1;
                    sortBy := sortBy st1 |}
             end
    end in
  {| products := products st2;
     loading := false;
     error := error st2;
     filteredProducts := filteredProducts st2;
     filterOpen := filterOpen st2;
     activeFilters := activeFilters st2;
     sortBy := sortBy st2 |}.

(** The filter/sort effect's [setFilteredProducts(result)] (line 101). *)
Definition runEffect (st : State) : State :=
  {| products := products st;
     loading := loading st;
     error := error st;
     filteredProducts := filterSort (products st) (activeFilters st) (sortBy st);
     filterOpen := filterOpen st;
     activeFilters := activeFilters st;
     sortBy := sortBy st |}.

(** [toggleFilter] (lines 104-106). *)
Definition toggleFilter (st : State) : State :=
  {| products := products st;
     loading := loading st;
     error := error st;
     filteredProducts := filteredProducts st;
     filterOpen := negb (filterOpen st);
     activeFilters := activeFilters st;
     sortBy := sortBy st |}.

(** The updater shared by the three handlers:
    [prev.includes(x) ? prev.filter(c => c !== x) : [...prev, x]]. *)
Definition toggle (prev : list string) (x : string) : list string :=
  if Js.includes prev x
  then filter (fun c => negb (String.eqb c x)) prev
  else prev ++ [x].

(** [handleCategoryFilter], [handlePriceFilter], [handleSizeFilter]
    (lines 108-133), as the updaters they pass to [setActiveFilters]. *)
Definition handleCategoryFilter (category : string) (prev : ActiveFilters)
  : ActiveFilters :=
  {| categories := toggle (categories prev) category;
     prices := prices prev;
     af_sizes := af_sizes prev |}.

Definition handlePriceFilter (price : string) (prev : ActiveFilters) : ActiveFilters :=
  {| categories := categories prev;
     prices := toggle (prices prev) price;
     af_sizes := af_sizes prev |}.

Definition handleSizeFilter (size : string) (prev : ActiveFilters) : ActiveFilters :=
  {| categories := categories prev;
     prices := prices prev;
     af_sizes := toggle (af_sizes prev) size |}.

(** [clearAllFilters] (lines 135-141). *)
Definition clearAllFilters : ActiveFilters :=
  {| categories := []; prices := []; af_sizes := [] |}.

(** [totalActiveFilters] (lines 164-167). *)
Definition totalActiveFilters (af : ActiveFilters) : nat :=
  List.length (categories af) + List.length (prices af) + List.length (af_sizes af).

(** Which of the three returns of the component is taken (lines 169-203);
    [if (error)] is false for [null] and for the empty string. *)
Inductive View :=
| Spinner
| TryAgain (message : string)
| Listing.

Definition render (st : State) : View :=
  if loading st then Spinner
  else match error st with
       | Some message => if String.eqb message "" then Listing else TryAgain message
       | None => Listing
       end.

End Controls.

(** ** Further auxiliary definitions used by the proofs *)

Module Extra.

(** A product passes the filter stage: in every dimension, the selection
    is empty or the dimension's callback accepts the product. *)
Definition passes (af : Page.ActiveFilters) (product : Page.Product) : bool :=
  (Nat.eqb (List.length (Page.categories af)) 0 || Page.categoryPredicate af product)
  && (Nat.eqb (List.length (Page.prices af)) 0 || Page.pricePredicate af product)
  && (Nat.eqb (List.length (Page.af_sizes af)) 0 || Page.sizePredicate af product).

(** One dimension's selection [sel'] lets through at least what [sel]
    does: it is empty, or [sel] is not and all of [sel] is in [sel']. *)
Definition widens (sel sel' : list string) : Prop :=
  sel' = [] \/ (sel <> [] /\ incl sel sel').

(** The handler's outbound request and its three kinds of answer. *)
Definition vendorRequest (printfulApiKey : string) : Normalizer.FetchRequest :=
  {| Normalizer.url := "https://api.printful.com/store/products";
     Normalizer.request_headers :=
       [("Authorization", ("Bearer " ++ printfulApiKey)%string)] |}.

Definition preflight : Normalizer.Response :=
  {| Normalizer.status := 200;
     Normalizer.headers := Normalizer.corsHeaders;
     Normalizer.body := Normalizer.NoBody |}.

Definition failure (error : string) : Normalizer.Response :=
  {| Normalizer.status := 500;
     Normalizer.headers :=
       ("Content-Type", "application/json") :: Normalizer.corsHeaders;
     Normalizer.body := Normalizer.JsonError error |}.

Definition success (formattedProducts : list FormattedProduct) : Normalizer.Response :=
  {| Normalizer.status := 200;
     Normalizer.headers :=
       ("Content-Type", "application/json") :: Normalizer.corsHeaders;
     Normalizer.body := Normalizer.JsonProducts formattedProducts |}.

(** Surroundings in which the vendor answers with two well-formed
    products. *)
Definition catalogAnswer : Normalizer.FetchResponse :=
  {| Normalizer.ok := true; Normalizer.statusText := "OK";
     Normalizer.payload := Normalizer.Ok [Sample.twoReds; Sample.mixedSizes] |}.

Definition catalogDeno : Normalizer.Deno :=
  {| Normalizer.env_get :=
       fun name => if String.eqb name "PRINTFUL_API_KEY" then Some "secret" else None;
     Normalizer.network := fun _ => Normalizer.Ok catalogAnswer;
     Normalizer.parseFloat := fun _ => 19.5%float;
     Normalizer.toLowerCase := Sample.lowerAscii |}.

(** Surroundings in which the vendor refuses the credential, and in which
    the credential is set to the empty string. *)
Definition refusingDeno : Normalizer.Deno :=
  {| Normalizer.env_get :=
       fun name => if String.eqb name "PRINTFUL_API_KEY" then Some "secret" else None;
     Normalizer.network :=
       fun _ => Normalizer.Ok
         {| Normalizer.ok := false; Normalizer.statusText := "Unauthorized";
            Normalizer.payload := Normalizer.Ok [Sample.twoReds] |};
     Normalizer.parseFloat := fun _ => 19.5%float;
     Normalizer.toLowerCase := Sample.lowerAscii |}.

Definition emptyKeyDeno : Normalizer.Deno :=
  {| Normalizer.env_get := fun _ => Some "";
     Normalizer.network := fun _ => Normalizer.Ok catalogAnswer;
     Normalizer.parseFloat := fun _ => 19.5%float;
     Normalizer.toLowerCase := Sample.lowerAscii |}.

(** The credential as the handler reads it: set and not empty. *)
Definition credential (d : Normalizer.Deno) : option string :=
  match Normalizer.env_get d "PRINTFUL_API_KEY" with
  | Some k => if String.eqb k "" then None else Some k
  | None => None
  end.

End Extra.

(** * Properties *)

(** ** Comparisons of doubles with the band boundaries *)

Module FloatFacts.

Import Boundary.

Lemma compare_swap x y : SFcompare y x = option_map CompOpp (SFcompare x y).
Proof.
  destruct x as [sx|sx| |sx mx ex], y as [sy|sy| |sy my ey]; simpl;
    try reflexivity;
    try (destruct sx; reflexivity); try (destruct sy; reflexivity);
    try (destruct sx, sy; reflexivity).
  destruct sx, sy; simpl; try reflexivity;
    rewrite (Z.compare_antisym ex ey);
    destruct (ex ?= ey)%Z eqn:E; simpl; try reflexivity;
    rewrite ?CompOpp_involutive, ?Pos.compare_cont_antisym; reflexivity.
Qed.

Lemma ltb_compare x y : PrimFloat.ltb x y = isLt (SFcompare (Prim2SF x) (Prim2SF y)).
Proof. rewrite ltb_spec. reflexivity. Qed.

Lemma leb_compare x y : PrimFloat.leb x y = isLe (SFcompare (Prim2SF x) (Prim2SF y)).
Proof. rewrite leb_spec. reflexivity. Qed.

Lemma gtb_compare x y : Js.gtb x y = isGt (SFcompare (Prim2SF x) (Prim2SF y)).
Proof.
  unfold Js.gtb. rewrite ltb_compare, compare_swap.
  destruct (SFcompare (Prim2SF x) (Prim2SF y)) as [[]|]; reflexivity.
Qed.

Lemma geb_compare x y : Js.geb x y = isGe (SFcompare (Prim2SF x) (Prim2SF y)).
Proof.
  unfold Js.geb. rewrite leb_compare, compare_swap.
  destruct (SFcompare (Prim2SF x) (Prim2SF y)) as [[]|]; reflexivity.
Qed.

(** Below or at a positive boundary means strictly below every boundary
    with a larger exponent. *)
Lemma compare_chain x m1 e1 m2 e2 :
  (e1 < e2)%Z ->
  isLe (SFcompare x (S754_finite false m1 e1)) = true ->
  SFcompare x (S754_finite false m2 e2) = Some Lt.
Proof.
  intros He H.
  destruct x as [s|s| |s m e]; simpl in *; try reflexivity; try discriminate.
  - destruct s; [reflexivity | discriminate].
  - destruct s; [reflexivity |].
    destruct (Z.compare_spec e e1) as [E|E|E]; try discriminate.
    + subst e. rewrite (proj2 (Z.compare_lt_iff e1 e2) He). reflexivity.
    + rewrite (proj2 (Z.compare_lt_iff e e2)) by lia. reflexivity.
Qed.

(** A double that is not NaN compares with every finite double. *)
Lemma not_nan_compare p s m e :
  PrimFloat.is_nan p = false ->
  exists c, SFcompare (Prim2SF p) (S754_finite s m e) = Some c.
Proof.
  unfold PrimFloat.is_nan. rewrite eqb_spec. intros H.
  destruct (Prim2SF p) as [s'|s'| |s' m' e']; simpl in *;
    try discriminate; eauto.
Qed.

Lemma position p :
  PrimFloat.is_nan p = false ->
  Position (SFcompare (Prim2SF p) c50) (SFcompare (Prim2SF p) c100)
           (SFcompare (Prim2SF p) c150).
Proof.
  intros H.
  pose proof (fun m1 e1 m2 e2 => compare_chain (Prim2SF p) m1 e1 m2 e2) as chain.
  unfold c50, c100, c150.
  destruct (not_nan_compare p false 7036874417766400 (-47) H) as [a Ha].
  destruct (not_nan_compare p false 7036874417766400 (-46) H) as [b Hb].
  destruct (not_nan_compare p false 5277655813324800 (-45) H) as [c Hc].
  assert (H1 : isLe (Some a) = true -> b = Lt).
  { intros L. rewrite <- Ha in L.
    apply (chain _ _ 7036874417766400%positive (-46)%Z) in L; [|lia]. congruence. }
  assert (H2 : isLe (Some a) = true -> c = Lt).
  { intros L. rewrite <- Ha in L.
    apply (chain _ _ 5277655813324800%positive (-45)%Z) in L; [|lia]. congruence. }
  assert (H3 : isLe (Some b) = true -> c = Lt).
  { intros L. rewrite <- Hb in L.
    apply (chain _ _ 5277655813324800%positive (-45)%Z) in L; [|lia]. congruence. }
  rewrite Ha, Hb, Hc.
  destruct a, b, c; simpl in *;
    try (specialize (H1 eq_refl)); try (specialize (H2 eq_refl));
    try (specialize (H3 eq_refl)); try discriminate; constructor.
Qed.

End FloatFacts.

(** ** Facts about the built-ins *)

Module JsFacts.

Lemma includes_In l x : Js.includes l x = true <-> In x l.
Proof.
  unfold Js.includes. rewrite existsb_exists. split.
  - intros [y [Hy E]]. apply String.eqb_eq in E. now subst.
  - intros H. exists x. split; [assumption | apply String.eqb_refl].
Qed.

Lemma includes_cons b l x :
  Js.includes (b :: l) x = String.eqb x b || Js.includes l x.
Proof. reflexivity. Qed.

Section NewSet.

Variable A : Type.
Variable eqb : A -> A -> bool.
Hypothesis eqb_spec : forall x y, eqb x y = true <-> x = y.

Lemma mem_In x acc : existsb (eqb x) acc = true <-> In x acc.
Proof.
  rewrite existsb_exists. split.
  - intros [y [Hy E]]. apply eqb_spec in E. now subst.
  - intros H. exists x. split; [assumption | now apply eqb_spec].
Qed.

Lemma set_add_In x y acc : In x (Js.set_add eqb acc y) <-> In x acc \/ x = y.
Proof.
  unfold Js.set_add. destruct (existsb (eqb y) acc) eqn:E.
  - apply mem_In in E. split; [tauto | intros [H | ->]; assumption].
  - rewrite in_app_iff. simpl. intuition congruence.
Qed.

Lemma set_add_NoDup y acc : NoDup acc -> NoDup (Js.set_add eqb acc y).
Proof.
  intros H. unfold Js.set_add. destruct (existsb (eqb y) acc) eqn:E; [assumption |].
  assert (~ In y acc) as Hy by (rewrite <- mem_In; congruence).
  clear E. induction H as [|x l Hx Hl IH]; simpl.
  - constructor; [tauto | constructor].
  - constructor.
    + rewrite in_app_iff. simpl in *. intuition congruence.
    + apply IH. simpl in Hy. tauto.
Qed.

Lemma fold_set_add_In x l : forall acc,
  In x (fold_left (Js.set_add eqb) l acc) <-> In x acc \/ In x l.
Proof.
  induction l as [|y l IH]; intros acc; simpl.
  - tauto.
  - rewrite IH, set_add_In. intuition congruence.
Qed.

Lemma fold_set_add_NoDup l : forall acc,
  NoDup acc -> NoDup (fold_left (Js.set_add eqb) l acc).
Proof.
  induction l as [|y l IH]; intros acc H; simpl; [assumption |].
  apply IH, set_add_NoDup, H.
Qed.

Lemma fold_set_add_distinct l : forall acc,
  NoDup (acc ++ l) -> fold_left (Js.set_add eqb) l acc = acc ++ l.
Proof.
  induction l as [|y l IH]; intros acc H; simpl.
  - now rewrite app_nil_r.
  - assert (~ In y acc) as Hy.
    { apply NoDup_remove_2 in H. rewrite in_app_iff in H. tauto. }
    unfold Js.set_add at 2.
    destruct (existsb (eqb y) acc) eqn:E; [apply mem_In in E; tauto |].
    rewrite IH; rewrite <- app_assoc; [reflexivity | exact H].
Qed.

(** The elements of [[...new Set(l)]] are those of [l]. *)
Lemma newSet_In x l : In x (Js.newSet eqb l) <-> In x l.
Proof. unfold Js.newSet. rewrite fold_set_add_In. simpl. tauto. Qed.

(** No element of [[...new Set(l)]] occurs twice. *)
Lemma newSet_NoDup l : NoDup (Js.newSet eqb l).
Proof. apply fold_set_add_NoDup. constructor. Qed.

(** A [Set] built from pairwise distinct elements keeps them all. *)
Lemma newSet_distinct l : NoDup l -> Js.newSet eqb l = l.
Proof. intros H. apply (fold_set_add_distinct l []). exact H. Qed.

End NewSet.

Section Sort.

Variable A : Type.
Variable comparefn : A -> A -> float.

Lemma insert_Permutation x l : Permutation (Js.insert comparefn x l) (x :: l).
Proof.
  induction l as [|y l IH]; simpl; [reflexivity |].
  destruct (Js.gtb (comparefn x y) 0); [| reflexivity].
  rewrite IH. apply perm_swap.
Qed.

(** [sort] rearranges: it neither drops nor adds an element. *)
Lemma sort_Permutation l : Permutation (Js.sort comparefn l) l.
Proof.
  induction l as [|x l IH]; simpl; [reflexivity |].
  rewrite insert_Permutation. now constructor.
Qed.

End Sort.

End JsFacts.

(** ** The products page *)

Module PageFacts.

Import Page.

(** The price callback accepts a product exactly when one of the chosen
    bands, read as the specification words them, holds its price. *)
Lemma pricePredicate_any af product :
  pricePredicate af product
  = existsb (fun band => Spec.inBand band (price product)) (prices af).
Proof.
  unfold pricePredicate, Js.geb, Js.gtb.
  generalize (price product) as p. intros p.
  induction (prices af) as [|b l IH].
  - reflexivity.
  - cbn [existsb]. rewrite <- IH. rewrite !JsFacts.includes_cons.
    unfold Spec.inBand.
    rewrite (String.eqb_sym "under-50" b), (String.eqb_sym "50-100" b),
      (String.eqb_sym "100-150" b), (String.eqb_sym "over-150" b).
    generalize (Js.includes l "under-50"), (Js.includes l "50-100"),
      (Js.includes l "100-150"), (Js.includes l "over-150"),
      (PrimFloat.ltb p 50), (PrimFloat.leb 50 p), (PrimFloat.leb p 100),
      (PrimFloat.ltb 100 p), (PrimFloat.leb p 150), (PrimFloat.ltb 150 p).
    intros i1 i2 i3 i4 c1 c2 c2' c3 c3' c4.
    destruct (String.eqb_spec b "under-50") as [-> | _];
      [cbn; destruct i1, i2, i3, i4, c1, c2, c2', c3, c3', c4; reflexivity |].
    destruct (String.eqb_spec b "50-100") as [-> | _];
      [cbn; destruct i1, i2, i3, i4, c1, c2, c2', c3, c3', c4; reflexivity |].
    destruct (String.eqb_spec b "100-150") as [-> | _];
      [cbn; destruct i1, i2, i3, i4, c1, c2, c2', c3, c3', c4; reflexivity |].
    destruct (String.eqb_spec b "over-150") as [-> | _];
      [cbn; destruct i1, i2, i3, i4, c1, c2, c2', c3, c3', c4; reflexivity |].
    reflexivity.
Qed.

Lemma pricePredicate_one band product :
  pricePredicate (Spec.choosing [band]) product = Spec.inBand band (price product).
Proof. rewrite pricePredicate_any. cbn. apply orb_false_r. Qed.

Lemma inBand_bands band p : Spec.inBand band p = true -> In band Spec.bands.
Proof.
  unfold Spec.inBand, Spec.bands.
  destruct (String.eqb_spec band "under-50") as [-> | _]; [simpl; tauto |].
  destruct (String.eqb_spec band "50-100") as [-> | _]; [simpl; tauto |].
  destruct (String.eqb_spec band "100-150") as [-> | _]; [simpl; tauto |].
  destruct (String.eqb_spec band "over-150") as [-> | _]; [simpl; tauto |].
  discriminate.
Qed.

(** The band tests, read off the position of the price. *)
Lemma inBand_position band p :
  Spec.inBand band p =
  let a := SFcompare (Prim2SF p) Boundary.c50 in
  let b := SFcompare (Prim2SF p) Boundary.c100 in
  let c := SFcompare (Prim2SF p) Boundary.c150 in
  if String.eqb band "under-50" then Boundary.isLt a
  else if String.eqb band "50-100" then Boundary.isGe a && Boundary.isLe b
  else if String.eqb band "100-150" then Boundary.isGt b && Boundary.isLe c
  else if String.eqb band "over-150" then Boundary.isGt c
  else false.
Proof.
  unfold Spec.inBand.
  change (PrimFloat.leb 50 p) with (Js.geb p 50).
  change (PrimFloat.ltb 100 p) with (Js.gtb p 100).
  change (PrimFloat.ltb 150 p) with (Js.gtb p 150).
  rewrite !FloatFacts.ltb_compare, !FloatFacts.leb_compare,
    !FloatFacts.gtb_compare, !FloatFacts.geb_compare.
  reflexivity.
Qed.

(** A price that is not NaN lies in exactly one band. *)
Lemma inBand_exactly_one p :
  PrimFloat.is_nan p = false ->
  exists band, Spec.inBand band p = true
               /\ forall band', Spec.inBand band' p = true -> band' = band.
Proof.
  intros H. pose proof (FloatFacts.position p H) as P.
  assert (forall band', Spec.inBand band' p = true ->
                        Spec.inBand band' p = true /\ In band' Spec.bands) as B
    by (intros b Hb; split; [exact Hb | exact (inBand_bands b p Hb)]).
  inversion P as [Ha|Ha|Ha|Ha|Ha|Ha|Ha];
    [ exists "under-50" | exists "50-100" | exists "50-100" | exists "50-100"
    | exists "100-150" | exists "100-150" | exists "over-150" ];
    (split;
     [ rewrite inBand_position; cbv zeta; rewrite <- ?Ha, <- ?H0, <- ?H1; reflexivity
     | intros b Hb; destruct (B b Hb) as [Hb' Hin]; clear Hb B;
       rewrite inBand_position in Hb'; cbv zeta in Hb';
       rewrite <- ?Ha, <- ?H0, <- ?H1 in Hb';
       simpl in Hin;
       destruct Hin as [<- | [<- | [<- | [<- | []]]]];
       first [reflexivity | discriminate Hb'] ]).
Qed.

(** NaN, the one double off the real line, is accepted by no band. *)
Lemma nan_in_no_band band product :
  PrimFloat.is_nan (price product) = true ->
  pricePredicate (Spec.choosing [band]) product = false.
Proof.
  unfold PrimFloat.is_nan. rewrite eqb_spec. intros H.
  rewrite pricePredicate_one, inBand_position. cbv zeta.
  destruct (Prim2SF (price product)) as [s|s| |s m e].
  - discriminate.
  - destruct s; discriminate.
  - destruct (String.eqb band "under-50"), (String.eqb band "50-100"),
      (String.eqb band "100-150"), (String.eqb band "over-150"); reflexivity.
  - unfold SFeqb, SFcompare in H.
    rewrite Z.compare_refl, Pos.compare_cont_refl in H.
    destruct s; discriminate.
Qed.

(** C2: the price callback uses the boundaries under-50: price < 50;
    50-100: 50 <= price <= 100; 100-150: 100 < price <= 150; over-150:
    price > 150.  No price is accepted by two bands, and every price on
    the real line (every double that is not NaN) is accepted by one: the
    four bands are pairwise disjoint and exhaustive.  50 and 100 are
    accepted by 50-100 only and 150 by 100-150 only; and a product passes
    the callback iff one of the chosen bands accepts its price. *)
Theorem price_bands_partition (af : ActiveFilters) (product : Product) :
  let accepts band := pricePredicate (Spec.choosing [band]) product in
  (accepts "under-50" = PrimFloat.ltb (price product) 50
   /\ accepts "50-100" = Js.geb (price product) 50 && PrimFloat.leb (price product) 100
   /\ accepts "100-150" = Js.gtb (price product) 100 && PrimFloat.leb (price product) 150
   /\ accepts "over-150" = Js.gtb (price product) 150)
  /\ (forall band band', In band Spec.bands -> In band' Spec.bands ->
        accepts band = true -> accepts band' = true -> band = band')
  /\ (PrimFloat.is_nan (price product) = false ->
      exists band, In band Spec.bands /\ accepts band = true)
  /\ (forall band, In band Spec.bands ->
        (price product = 50%float \/ price product = 100%float ->
           (accepts band = true <-> band = "50-100"))
        /\ (price product = 150%float -> (accepts band = true <-> band = "100-150")))
  /\ (pricePredicate af product = true <->
      exists band, In band (prices af) /\ In band Spec.bands /\ accepts band = true).
Proof.
  cbv zeta. split; [| split; [| split; [| split]]].
  - rewrite !pricePredicate_one. repeat split.
  - intros band band' _ _ Hb Hb'.
    destruct (PrimFloat.is_nan (price product)) eqn:Hnan.
    + rewrite (nan_in_no_band band product Hnan) in Hb. discriminate.
    + destruct (inBand_exactly_one _ Hnan) as [b [_ Hu]].
      rewrite pricePredicate_one in Hb, Hb'.
      now rewrite (Hu band Hb), (Hu band' Hb').
  - intros Hreal. destruct (inBand_exactly_one _ Hreal) as [band [Hb _]].
    exists band. split; [exact (inBand_bands _ _ Hb) |].
    now rewrite pricePredicate_one.
  - intros band Hin. rewrite pricePredicate_one. simpl in Hin. split.
    + intros [-> | ->];
        destruct Hin as [<- | [<- | [<- | [<- | []]]]];
        split; vm_compute; congruence.
    + intros ->.
      destruct Hin as [<- | [<- | [<- | [<- | []]]]];
        split; vm_compute; congruence.
  - split.
    + rewrite pricePredicate_any, existsb_exists. intros [band [Hin Hb]].
      exists band. split; [exact Hin |]. split; [exact (inBand_bands _ _ Hb) |].
      now rewrite pricePredicate_one.
    + intros [band [Hin [_ Hb]]]. rewrite pricePredicate_one in Hb.
      rewrite pricePredicate_any, existsb_exists. eauto.
Qed.

(** At the price 100 the band that accepts is 50-100, and no other. *)
Lemma price_bands_partition_witness :
  PrimFloat.is_nan (price (Sample.tee 100 false)) = false
  /\ (exists band, In band Spec.bands
        /\ pricePredicate (Spec.choosing [band]) (Sample.tee 100 false) = true)
  /\ pricePredicate (Spec.choosing ["50-100"]) (Sample.tee 100 false) = true
  /\ pricePredicate (Spec.choosing ["100-150"]) (Sample.tee 100 false) <> true.
Proof.
  pose proof (price_bands_partition noFilters (Sample.tee 100 false)) as H.
  cbv zeta in H. destruct H as [_ [_ [Hexh [Hex _]]]].
  split; [reflexivity |]. split; [exact (Hexh eq_refl) |]. split.
  - apply (proj1 (Hex "50-100" ltac:(simpl; tauto))); [now right | reflexivity].
  - intros Hb.
    apply (proj1 (Hex "100-150" ltac:(simpl; tauto))) in Hb; [discriminate | now right].
Defined.

(** *** Sorting *)

Lemma sort_pair {A} (comparefn : A -> A -> float) a b :
  Js.sort comparefn [a; b]
  = if Js.gtb (comparefn a b) 0 then [b; a] else [a; b].
Proof. reflexivity. Qed.

Lemma insert_newest_new x l : isNew x = true -> Js.insert newest x l = x :: l.
Proof.
  intros Hx. destruct l as [|y l]; [reflexivity |].
  simpl. unfold newest. rewrite Hx. destruct (isNew y); reflexivity.
Qed.

Lemma insert_newest_old x news olds :
  isNew x = false ->
  Forall (fun y => isNew y = true) news ->
  Forall (fun y => isNew y = false) olds ->
  Js.insert newest x (news ++ olds) = news ++ x :: olds.
Proof.
  intros Hx Hnews Holds. induction Hnews as [|y news Hy _ IH]; simpl.
  - destruct Holds as [|y olds Hy _]; [reflexivity |].
    simpl. unfold newest. rewrite Hx, Hy. reflexivity.
  - unfold newest at 1. rewrite Hx, Hy. cbn. now rewrite IH.
Qed.

Lemma sort_newest l : Js.sort newest l = Spec.stablePartition isNew l.
Proof.
  unfold Spec.stablePartition.
  induction l as [|x l IH]; [reflexivity |].
  simpl. rewrite IH. destruct (isNew x) eqn:Hx; simpl.
  - now apply insert_newest_new.
  - apply insert_newest_old; [exact Hx | |];
      apply Forall_forall; intros y Hy; apply filter_In in Hy;
      destruct Hy as [_ Hy]; [exact Hy | now apply negb_true_iff].
Qed.

Lemma applyFilters_none l : applyFilters noFilters l = l.
Proof. reflexivity. Qed.

(** C3: with the key "newest" the sort is a stable partition: the items
    with [isNew = true] first, then the others, each group in the order
    the filters left it, whatever the prices.  For A (new, price 80) and B
    (not new, price 20), "newest" yields [A, B] and "price-low" yields
    [B, A], in whichever order the two arrive. *)
Theorem newest_stable_partition (products : list Product) (af : ActiveFilters)
  (A B : Product)
  (HA : isNew A = true) (HA' : price A = 80%float)
  (HB : isNew B = false) (HB' : price B = 20%float) :
  filterSort products af "newest"
  = filter isNew (applyFilters af products)
    ++ filter (fun p => negb (isNew p)) (applyFilters af products)
  /\ filterSort [A; B] noFilters "newest" = [A; B]
  /\ filterSort [B; A] noFilters "newest" = [A; B]
  /\ filterSort [A; B] noFilters "price-low" = [B; A]
  /\ filterSort [B; A] noFilters "price-low" = [B; A].
Proof.
  split; [exact (sort_newest (applyFilters af products)) |].
  unfold filterSort. rewrite !applyFilters_none.
  cbn [applySort String.eqb Ascii.eqb Bool.eqb].
  rewrite !sort_pair. unfold newest, priceLow.
  rewrite HA, HB, HA', HB'. repeat split; reflexivity.
Qed.

(** The two sample shirts, one new at 80 and one not new at 20. *)
Lemma newest_stable_partition_witness :
  filterSort [Sample.tee 20 false; Sample.tee 80 true] noFilters "newest"
  = [Sample.tee 80 true; Sample.tee 20 false]
  /\ filterSort [Sample.tee 80 true; Sample.tee 20 false] noFilters "price-low"
     = [Sample.tee 20 false; Sample.tee 80 true].
Proof.
  pose proof (newest_stable_partition [] noFilters
                (Sample.tee 80 true) (Sample.tee 20 false)
                eq_refl eq_refl eq_refl eq_refl) as H.
  split; [exact (proj1 (proj2 (proj2 H))) | exact (proj1 (proj2 (proj2 (proj2 H))))].
Defined.

(** *** Filtering *)

(** C5: with the three selection sets empty the filters return the list
    they are given, same elements in the same order; each dimension
    whose set is empty lets every product through, whatever the other two
    hold.  (The sort that follows works on that unchanged list.) *)
Theorem empty_filters_identity (products : list Product) :
  applyFilters {| categories := []; prices := []; af_sizes := [] |} products = products
  /\ (forall ps ss,
        filterCategories {| categories := []; prices := ps; af_sizes := ss |} products
        = products)
  /\ (forall cs ss,
        filterPrices {| categories := cs; prices := []; af_sizes := ss |} products
        = products)
  /\ (forall cs ps,
        filterSizes {| categories := cs; prices := ps; af_sizes := [] |} products
        = products)
  /\ (forall sortBy,
        filterSort products {| categories := []; prices := []; af_sizes := [] |} sortBy
        = applySort sortBy products).
Proof. repeat split. Qed.

(** *** The store of arrays *)

Lemma load_alloc_old a l s : a < List.length s -> load a (snd (alloc l s)) = load a s.
Proof. intros H. unfold load, alloc. simpl. now rewrite app_nth1. Qed.

Lemma load_alloc_new l s : load (fst (alloc l s)) (snd (alloc l s)) = l.
Proof.
  unfold load, alloc. simpl. rewrite app_nth2 by lia.
  now rewrite Nat.sub_diag.
Qed.

Lemma length_store a l s : List.length (store a l s) = List.length s.
Proof.
  revert a. induction s as [|x s IH]; intros [|a]; simpl; auto.
Qed.

Lemma load_store_same a l s : a < List.length s -> load a (store a l s) = l.
Proof.
  unfold load. revert a. induction s as [|x s IH]; intros [|a] H; simpl in *;
    try lia; auto. apply IH. lia.
Qed.

Lemma load_store_other a b l s : a <> b -> load b (store a l s) = load b s.
Proof.
  unfold load. revert a b. induction s as [|x s IH]; intros [|a] [|b] H; simpl;
    try reflexivity; try congruence. apply IH. congruence.
Qed.

Lemma inv_spread products s0 :
  Frame.Inv s0 (load products s0) (fst (spread products s0)) (snd (spread products s0)).
Proof.
  unfold spread. split; [| split].
  - unfold alloc. simpl. rewrite length_app. simpl. lia.
  - apply load_alloc_new.
  - intros a Ha. now apply load_alloc_old.
Qed.

Lemma inv_filter f s0 contents result s :
  Frame.Inv s0 contents result s ->
  Frame.Inv s0 (filter f contents)
    (fst (arrayFilter f result s)) (snd (arrayFilter f result s)).
Proof.
  intros [Hr [Hc Hold]]. unfold arrayFilter. split; [| split].
  - unfold alloc. simpl. rewrite length_app. simpl. lia.
  - rewrite load_alloc_new. now rewrite Hc.
  - intros a Ha. rewrite load_alloc_old by lia. now apply Hold.
Qed.

Lemma inv_sort comparefn s0 contents result s :
  Frame.Inv s0 contents result s ->
  Frame.Inv s0 (Js.sort comparefn contents) result (arraySort comparefn result s).
Proof.
  intros [Hr [Hc Hold]]. unfold arraySort. split; [| split].
  - rewrite length_store. exact Hr.
  - rewrite load_store_same by lia. now rewrite Hc.
  - intros a Ha. rewrite load_store_other by lia. now apply Hold.
Qed.

Lemma inv_effect products af sortBy s0 :
  Frame.Inv s0 (filterSort (load products s0) af sortBy)
    (fst (effect products af sortBy s0)) (snd (effect products af sortBy s0)).
Proof.
  unfold effect, filterSort, applyFilters, filterSizes, filterPrices,
    filterCategories, applySort.
  pose proof (inv_spread products s0) as I1.
  destruct (spread products s0) as [r1 s1]. simpl in I1.
  assert (I2 : Frame.Inv s0
            (if (0 <? List.length (categories af))%nat
             then filter (categoryPredicate af) (load products s0)
             else load products s0)
            (fst (if (0 <? List.length (categories af))%nat
                  then arrayFilter (categoryPredicate af) r1 s1 else (r1, s1)))
            (snd (if (0 <? List.length (categories af))%nat
                  then arrayFilter (categoryPredicate af) r1 s1 else (r1, s1)))).
  { destruct (0 <? List.length (categories af))%nat; [now apply inv_filter | exact I1]. }
  destruct (if (0 <? List.length (categories af))%nat
            then arrayFilter (categoryPredicate af) r1 s1 else (r1, s1)) as [r2 s2].
  simpl in I2. revert I2. generalize (if (0 <? List.length (categories af))%nat
             then filter (categoryPredicate af) (load products s0)
             else load products s0) as c2. intros c2 I2.
  assert (I3 : Frame.Inv s0
            (if (0 <? List.length (prices af))%nat
             then filter (pricePredicate af) c2 else c2)
            (fst (if (0 <? List.length (prices af))%nat
                  then arrayFilter (pricePredicate af) r2 s2 else (r2, s2)))
            (snd (if (0 <? List.length (prices af))%nat
                  then arrayFilter (pricePredicate af) r2 s2 else (r2, s2)))).
  { destruct (0 <? List.length (prices af))%nat; [now apply inv_filter | exact I2]. }
  destruct (if (0 <? List.length (prices af))%nat
            then arrayFilter (pricePredicate af) r2 s2 else (r2, s2)) as [r3 s3].
  simpl in I3. revert I3. generalize (if (0 <? List.length (prices af))%nat
             then filter (pricePredicate af) c2 else c2) as c3. intros c3 I3.
  assert (I4 : Frame.Inv s0
            (if (0 <? List.length (af_sizes af))%nat
             then filter (sizePredicate af) c3 else c3)
            (fst (if (0 <? List.length (af_sizes af))%nat
                  then arrayFilter (sizePredicate af) r3 s3 else (r3, s3)))
            (snd (if (0 <? List.length (af_sizes af))%nat
                  then arrayFilter (sizePredicate af) r3 s3 else (r3, s3)))).
  { destruct (0 <? List.length (af_sizes af))%nat; [now apply inv_filter | exact I3]. }
  destruct (if (0 <? List.length (af_sizes af))%nat
            then arrayFilter (sizePredicate af) r3 s3 else (r3, s3)) as [r4 s4].
  simpl in I4. revert I4. generalize (if (0 <? List.length (af_sizes af))%nat
             then filter (sizePredicate af) c3 else c3) as c4. intros c4 I4.
  simpl.
  destruct (String.eqb sortBy "price-low"); [now apply inv_sort |].
  destruct (String.eqb sortBy "price-high"); [now apply inv_sort |].
  destruct (String.eqb sortBy "newest"); [now apply inv_sort | exact I4].
Qed.

Lemma applyFilters_incl af l : incl (applyFilters af l) l.
Proof.
  unfold applyFilters, filterSizes, filterPrices, filterCategories.
  destruct (0 <? List.length (af_sizes af))%nat,
    (0 <? List.length (prices af))%nat,
    (0 <? List.length (categories af))%nat;
    intros x Hx; repeat (apply filter_In in Hx; destruct Hx as [Hx _]); exact Hx.
Qed.

Lemma applySort_Permutation sortBy l : Permutation (applySort sortBy l) l.
Proof.
  unfold applySort.
  destruct (String.eqb sortBy "price-low"); [apply JsFacts.sort_Permutation |].
  destruct (String.eqb sortBy "price-high"); [apply JsFacts.sort_Permutation |].
  destruct (String.eqb sortBy "newest"); [apply JsFacts.sort_Permutation |].
  reflexivity.
Qed.

(** C6: running the effect leaves the array [products] (and every other
    array that existed before) with the same elements in the same order;
    the array it hands to [setFilteredProducts] is a new one whose
    contents are [filterSort] of the contents of [products], the filters
    and the sort key, and nothing else; every element of the output is an
    element of [products]. *)
Theorem effect_frame (s0 : Store) (products : addr) (af : ActiveFilters)
  (sortBy : string) (Hproducts : products < List.length s0) :
  let result := fst (effect products af sortBy s0) in
  let s := snd (effect products af sortBy s0) in
  load products s = load products s0
  /\ (forall a, a < List.length s0 -> load a s = load a s0)
  /\ result <> products
  /\ load result s = filterSort (load products s0) af sortBy
  /\ incl (load result s) (load products s0)
  /\ Permutation (load result s) (applyFilters af (load products s0)).
Proof.
  cbv zeta. destruct (inv_effect products af sortBy s0) as [Hr [Hc Hold]].
  split; [now apply Hold |]. split; [exact Hold |]. split; [lia |].
  split; [exact Hc |]. rewrite Hc. unfold filterSort. split.
  - intros x Hx. apply (applyFilters_incl af).
    eapply Permutation_in; [apply applySort_Permutation | exact Hx].
  - apply applySort_Permutation.
Qed.

(** A store holding one array of two products, sorted by rising price. *)
Lemma effect_frame_witness :
  load 0 (snd (effect 0 noFilters "price-low"
                 [[Sample.tee 80 true; Sample.tee 20 false]]))
  = [Sample.tee 80 true; Sample.tee 20 false]
  /\ load (fst (effect 0 noFilters "price-low"
                  [[Sample.tee 80 true; Sample.tee 20 false]]))
       (snd (effect 0 noFilters "price-low"
               [[Sample.tee 80 true; Sample.tee 20 false]]))
     = filterSort [Sample.tee 80 true; Sample.tee 20 false] noFilters "price-low".
Proof.
  pose proof (effect_frame [[Sample.tee 80 true; Sample.tee 20 false]] 0
                noFilters "price-low" (Nat.lt_0_succ 0)) as H.
  split; [exact (proj1 H) | exact (proj1 (proj2 (proj2 (proj2 H))))].
Defined.

End PageFacts.

(** ** The catalog normalizer *)

Module NormalizerFacts.

Import Normalizer Mapped.

(** *** Colors: one new object per variant that has a color option *)

Lemma mapA_cons {A B} (f : A -> Act B) x l w :
  mapA f (x :: l) w
  = match f x w with
    | (Ok y, w') =>
        match mapA f l w' with
        | (Ok ys, w'') => (Ok (y :: ys), w'')
        | (Throw e, w'') => (Throw e, w'')
        end
    | (Throw e, w') => (Throw e, w')
    end.
Proof.
  simpl. unfold bind. destruct (f x w) as [[y | e] w']; [| reflexivity].
  destruct (mapA f l w') as [[ys | e] w'']; reflexivity.
Qed.

Lemma colorOf_run d v w :
  colorOf d v w
  = match findOption "color" v with
    | Some _ => (Ok (Some (List.length (objects w))), allocated w (Spec.colorEntry d v))
    | None => (Ok None, w)
    end.
Proof.
  unfold colorOf, Spec.colorEntry. destruct (findOption "color" v); reflexivity.
Qed.

Lemma allocated_nil w : allocated w [] = w.
Proof. unfold allocated. rewrite app_nil_r. now destruct w. Qed.

Lemma allocated_app w cs cs' : allocated (allocated w cs) cs' = allocated w (cs ++ cs').
Proof. unfold allocated. simpl. now rewrite app_assoc. Qed.

Lemma mapA_colorOf d vs : forall w,
  exists mapped,
    mapA (colorOf d) vs w = (Ok mapped, allocated w (flat_map (Spec.colorEntry d) vs))
    /\ filterBoolean mapped
       = seq (List.length (objects w))
           (List.length (flat_map (Spec.colorEntry d) vs)).
Proof.
  induction vs as [|v vs IH]; intros w.
  - exists []. rewrite allocated_nil. now split.
  - rewrite mapA_cons, colorOf_run. cbn [flat_map].
    destruct (findOption "color" v) as [o|] eqn:Ho.
    + assert (List.length (Spec.colorEntry d v) = 1) as Hc
        by (unfold Spec.colorEntry; now rewrite Ho).
      destruct (IH (allocated w (Spec.colorEntry d v))) as [mapped [E F]].
      rewrite E, allocated_app. eexists. split; [reflexivity |].
      simpl. rewrite F. unfold allocated. simpl.
      rewrite !length_app, Hc, Nat.add_1_r. reflexivity.
    + assert (Spec.colorEntry d v = []) as Hc
        by (unfold Spec.colorEntry; now rewrite Ho).
      destruct (IH w) as [mapped [E F]]. rewrite E, Hc.
      exists (None :: mapped). now split.
Qed.

Lemma deref_allocated cs : forall w,
  map (deref (allocated w cs)) (seq (List.length (objects w)) (List.length cs)) = cs.
Proof.
  induction cs as [|c cs IH]; intros w; [reflexivity |].
  simpl. f_equal.
  - unfold deref, allocated. simpl. rewrite app_nth2 by lia.
    now rewrite Nat.sub_diag.
  - specialize (IH (allocated w [c])).
    unfold allocated in *. simpl in *.
    rewrite length_app, <- app_assoc in IH. simpl in IH.
    rewrite Nat.add_1_r in IH. exact IH.
Qed.

(** The [Set] removes nothing: the references it holds are pairwise
    distinct, whatever the colors they point to. *)
Lemma uniqueColors_all d product w :
  uniqueColors d product w
  = (Ok (colorsOf d product), allocated w (colorsOf d product)).
Proof.
  unfold uniqueColors, bind, colorsOf.
  destruct (mapA_colorOf d (variants product) w) as [mapped [E F]].
  rewrite E, F.
  rewrite (JsFacts.newSet_distinct _ Nat.eqb Nat.eqb_eq) by apply seq_NoDup.
  now rewrite deref_allocated.
Qed.

(** *** The mapping of one product *)

Lemma firstPreview_run v w :
  firstPreview v w
  = (if hasFile v then Ok (previewOf v) else Throw (undefinedRead "preview_url"), w).
Proof.
  unfold firstPreview, hasFile, previewOf. destruct (files v); reflexivity.
Qed.

Lemma mapA_firstPreview vs w :
  mapA firstPreview vs w
  = (if forallb hasFile vs then Ok (map previewOf vs)
     else Throw (undefinedRead "preview_url"), w).
Proof.
  induction vs as [|v vs IH]; [reflexivity |].
  rewrite mapA_cons, firstPreview_run, IH. cbn [forallb map].
  destruct (hasFile v), (forallb hasFile vs); reflexivity.
Qed.

Lemma formatProduct_run d product w :
  formatProduct d product w
  = (if Spec.wellFormed product then Ok (mappedProduct d product)
     else Throw (formatError product),
     allocated w (colorsOf d product)).
Proof.
  unfold formatProduct, bind. rewrite uniqueColors_all.
  unfold Spec.wellFormed, formatError, mappedProduct, mainVariantOf.
  fold hasFile. fold (forallb hasFile (variants product)).
  destruct (variants product) as [|v vs] eqn:Hv; [reflexivity |].
  cbn [nth_error readProperty ret nth List.length Nat.eqb negb andb].
  cbn [forallb map]. unfold hasFile at 1, previewOf at 1 2.
  destruct (files v) as [|f fs] eqn:Hf; [reflexivity |].
  cbn [readProperty ret List.length Nat.eqb negb andb].
  rewrite mapA_firstPreview. cbn [forallb map].
  unfold hasFile at 1, previewOf at 1. rewrite Hf. cbn [List.length Nat.eqb negb andb].
  destruct (forallb hasFile vs); reflexivity.
Qed.

(** The mapping yields a product exactly for the well-formed ones. *)
Lemma formatProduct_total d product w :
  (exists p w', formatProduct d product w = (Ok p, w'))
  <-> Spec.wellFormed product = true.
Proof.
  rewrite formatProduct_run. destruct (Spec.wellFormed product); split.
  - reflexivity.
  - eauto.
  - intros [p [w' H]]. discriminate.
  - discriminate.
Qed.

Lemma mapA_formatProduct_ok d products : forall w,
  forallb Spec.wellFormed products = true ->
  mapA (formatProduct d) products w
  = (Ok (map (mappedProduct d) products),
     allocated w (flat_map (colorsOf d) products)).
Proof.
  induction products as [|product products IH]; intros w H.
  - simpl. now rewrite allocated_nil.
  - cbn [forallb] in H. apply andb_true_iff in H. destruct H as [H1 H2].
    rewrite mapA_cons, formatProduct_run, H1, (IH _ H2), allocated_app.
    reflexivity.
Qed.

Lemma mapA_formatProduct_throw d products : forall w,
  forallb Spec.wellFormed products = false ->
  exists product w',
    In product products /\ Spec.wellFormed product = false
    /\ mapA (formatProduct d) products w = (Throw (formatError product), w').
Proof.
  induction products as [|product products IH]; intros w H; [discriminate |].
  cbn [forallb] in H. rewrite mapA_cons, formatProduct_run.
  destruct (Spec.wellFormed product) eqn:H1.
  - destruct (IH (allocated w (colorsOf d product)) H) as [bad [w' [Hin [Hbad E]]]].
    rewrite E. exists bad, w'. simpl. tauto.
  - exists product. eexists. simpl. split; [now left |]. split; [exact H1 |].
    reflexivity.
Qed.

Lemma formatProduct_Ok d product w p w' :
  formatProduct d product w = (Ok p, w') ->
  Spec.wellFormed product = true /\ p = mappedProduct d product.
Proof.
  rewrite formatProduct_run. destruct (Spec.wellFormed product); intros H.
  - split; [reflexivity | congruence].
  - discriminate.
Qed.

Lemma hasFile_first v : hasFile v = true ->
  exists f, nth_error (files v) 0 = Some f /\ previewOf v = preview_url f.
Proof.
  unfold hasFile, previewOf. destruct (files v) as [|f fs]; [discriminate |].
  intros _. exists f. now split.
Qed.

(** C1 (the code at the failing input): the two variants of [twoReds]
    have the same color, and the mapped [colors] holds that color twice,
    where the distinct color names are one. *)
Theorem uniqueColors_keeps_duplicates (d : Deno) (w : World) :
  exists p w', formatProduct d Sample.twoReds w = (Ok p, w')
               /\ colors p = [Sample.red d; Sample.red d]
               /\ Spec.colors d Sample.twoReds = [Sample.red d].
Proof.
  rewrite formatProduct_run. eexists. eexists. split; [reflexivity |].
  split; [reflexivity |].
  unfold Spec.colors, Js.newSet. cbn [Sample.twoReds Sample.vendorProduct
    Normalizer.variants flat_map fold_left].
  change (Spec.colorEntry d (Sample.variant (Some "Red") (Some "M") ["a.png"]))
    with [Sample.red d].
  change (Spec.colorEntry d (Sample.variant (Some "Red") (Some "L") ["b.png"]))
    with [Sample.red d].
  cbn [app fold_left]. unfold Js.set_add. cbn [existsb app orb].
  unfold Spec.color_eqb. now rewrite !String.eqb_refl.
Qed.

(** The same run where [toLowerCase] lowers "Red" to "red": the array
    reads [{name: "Red", value: "red"}] twice. *)
Lemma twoReds_colors :
  exists p w', formatProduct Sample.noKey Sample.twoReds start = (Ok p, w')
               /\ colors p = [{| color_name := "Red"; color_value := "red" |};
                              {| color_name := "Red"; color_value := "red" |}].
Proof.
  rewrite formatProduct_run. eexists. eexists. split; reflexivity.
Qed.

(** What [colors] does hold: one entry per variant that has a color
    option, in the order of the variants, the name paired with its
    lowercased value; a variant without a color option gives no entry. *)
Lemma colors_one_per_colored_variant d product w p w' :
  formatProduct d product w = (Ok p, w') ->
  colors p = flat_map (Spec.colorEntry d) (variants product).
Proof. intros H. apply formatProduct_Ok in H. destruct H as [_ ->]. reflexivity. Qed.

(** C7: for a vendor product with at least one variant, the mapping
    yields a product exactly when every variant has a preview file, and
    then [imageUrls] has one entry per variant, the i-th being the first
    preview-file URL of the i-th variant, and [imageUrl] is the first
    preview-file URL of the first variant. *)
Theorem imageUrls_per_variant (d : Deno) (product : PrintfulProduct) (w : World)
  (Hvariants : variants product <> []) :
  ((exists p w', formatProduct d product w = (Ok p, w'))
   <-> Forall (fun v => files v <> []) (variants product))
  /\ forall p w', formatProduct d product w = (Ok p, w') ->
       List.length (imageUrls p) = List.length (variants product)
       /\ (forall i v, nth_error (variants product) i = Some v ->
             exists f, nth_error (files v) 0 = Some f
                       /\ nth_error (imageUrls p) i = Some (preview_url f))
       /\ (exists v f, nth_error (variants product) 0 = Some v
                       /\ nth_error (files v) 0 = Some f
                       /\ imageUrl p = preview_url f).
Proof.
  assert (Hwf : Spec.wellFormed product = true
                <-> Forall (fun v => files v <> []) (variants product)).
  { unfold Spec.wellFormed. destruct (variants product) as [|v0 vs]; [congruence |].
    cbn [List.length Nat.eqb negb andb]. rewrite forallb_forall, Forall_forall.
    split; intros H v Hv; specialize (H v Hv); destruct (files v);
      simpl in *; congruence. }
  split; [rewrite formatProduct_total; exact Hwf |].
  intros p w' H. apply formatProduct_Ok in H. destruct H as [Hw ->].
  unfold Spec.wellFormed in Hw. apply andb_true_iff in Hw. destruct Hw as [_ Hfiles].
  fold hasFile in Hfiles. fold (forallb hasFile (variants product)) in Hfiles.
  rewrite forallb_forall in Hfiles. cbn [imageUrls imageUrl mappedProduct].
  split; [apply length_map |]. split.
  - intros i v Hi. destruct (hasFile_first v) as [f [Hf Hp]].
    { apply Hfiles. eapply nth_error_In. exact Hi. }
    exists f. split; [exact Hf |]. rewrite nth_error_map, Hi. simpl. now rewrite Hp.
  - unfold mainVariantOf. destruct (variants product) as [|v vs]; [congruence |].
    destruct (hasFile_first v) as [f [Hf Hp]]; [apply Hfiles; now left |].
    exists v, f. simpl. now repeat split.
Qed.

(** The two variants of [twoReds], with one preview file each. *)
Lemma imageUrls_per_variant_witness :
  variants Sample.twoReds <> []
  /\ exists p w', formatProduct Sample.noKey Sample.twoReds start = (Ok p, w')
                  /\ imageUrls p = ["a.png"; "b.png"] /\ imageUrl p = "a.png".
Proof.
  split; [discriminate |].
  destruct (proj2 (proj1 (imageUrls_per_variant Sample.noKey Sample.twoReds start
                            ltac:(discriminate))))
    as [p [w' H]].
  - repeat constructor; discriminate.
  - exists p, w'. split; [exact H |].
    rewrite formatProduct_run in H. injection H as <- _. now split.
Defined.

(** *** Sizes *)

Lemma sizeOf_cases v :
  match findOption "size" v with
  | Some o => if String.eqb (option_value o) "" then sizeOf v = "One Size"
              else sizeOf v = option_value o
  | None => sizeOf v = "One Size"
  end.
Proof.
  unfold sizeOf. destruct (findOption "size" v) as [o|]; simpl; [| reflexivity].
  destruct (String.eqb (option_value o) ""); reflexivity.
Qed.

Lemma sizeOf_not_empty v : sizeOf v <> "".
Proof.
  pose proof (sizeOf_cases v) as H.
  destruct (findOption "size" v) as [o|]; [| rewrite H; discriminate].
  destruct (String.eqb_spec (option_value o) ""); rewrite H;
    [discriminate | assumption].
Qed.

Lemma uniqueSizes_In product s :
  In s (uniqueSizes product) <-> exists v, In v (variants product) /\ sizeOf v = s.
Proof.
  unfold uniqueSizes. rewrite (JsFacts.newSet_In _ String.eqb String.eqb_eq).
  rewrite in_map_iff. split; intros [v [H1 H2]]; exists v; tauto.
Qed.

Lemma uniqueSizes_NoDup product : NoDup (uniqueSizes product).
Proof. apply (JsFacts.newSet_NoDup _ String.eqb String.eqb_eq). Qed.

(** C8, as the code has it: the mapped [sizes] holds no value twice, and
    holds exactly the sizes of the variants, where the size of a variant
    is the value of its size option, or the sentinel "One Size" when it
    has no size option or when that value is the empty string; so if some
    variant has no size option, "One Size" occurs exactly once. *)
Theorem sizes_distinct_with_sentinel (d : Deno) (product : PrintfulProduct)
  (w w' : World) (p : FormattedProduct)
  (Hmapped : formatProduct d product w = (Ok p, w')) :
  NoDup (sizes p)
  /\ (forall s, In s (sizes p) <->
        exists v, In v (variants product)
                  /\ match findOption "size" v with
                     | Some o => if String.eqb (option_value o) ""
                                 then s = "One Size" else s = option_value o
                     | None => s = "One Size"
                     end)
  /\ ((exists v, In v (variants product) /\ findOption "size" v = None) ->
      count_occ string_dec (sizes p) "One Size" = 1).
Proof.
  apply formatProduct_Ok in Hmapped. destruct Hmapped as [_ ->].
  cbn [sizes mappedProduct].
  assert (Hin : forall s, In s (uniqueSizes product) <->
        exists v, In v (variants product)
                  /\ match findOption "size" v with
                     | Some o => if String.eqb (option_value o) ""
                                 then s = "One Size" else s = option_value o
                     | None => s = "One Size"
                     end).
  { intros s. rewrite uniqueSizes_In. split; intros [v [Hv H]]; exists v;
      (split; [exact Hv |]); pose proof (sizeOf_cases v) as C;
      destruct (findOption "size" v) as [o|];
      try destruct (String.eqb (option_value o) ""); congruence. }
  split; [apply uniqueSizes_NoDup |]. split; [exact Hin |].
  intros [v [Hv Hnone]].
  assert (In "One Size" (uniqueSizes product)) as Hone.
  { apply Hin. exists v. split; [exact Hv |]. now rewrite Hnone. }
  apply (count_occ_In string_dec) in Hone.
  pose proof (proj1 (NoDup_count_occ string_dec _) (uniqueSizes_NoDup product)
                "One Size").
  lia.
Qed.

(** A variant without a size option beside one of size M. *)
Lemma sizes_distinct_with_sentinel_witness :
  exists p w', formatProduct Sample.noKey Sample.mixedSizes start = (Ok p, w')
               /\ count_occ string_dec (sizes p) "One Size" = 1.
Proof.
  eexists. eexists. split; [rewrite formatProduct_run; reflexivity |].
  refine (proj2 (proj2 (sizes_distinct_with_sentinel Sample.noKey Sample.mixedSizes
                          start _ _ _)) _).
  - rewrite formatProduct_run. reflexivity.
  - eexists. split; [left; reflexivity | reflexivity].
Defined.

(** C8 as stated fails where a size option holds the empty string: the
    distinct values of the size option are then the empty string alone,
    and the mapped [sizes] is the sentinel alone. *)
Lemma sizes_empty_value_counterexample :
  exists p w', formatProduct Sample.noKey Sample.emptySize start = (Ok p, w')
               /\ sizes p = ["One Size"]
               /\ Spec.sizes Sample.emptySize = [""].
Proof.
  rewrite formatProduct_run. eexists. eexists. split; [reflexivity |].
  split; reflexivity.
Qed.

(** C10: a variant whose size option is present with the empty string
    as its value contributes the sentinel "One Size", and the empty
    string is never among the mapped [sizes]. *)
Theorem empty_size_falls_back (d : Deno) (product : PrintfulProduct)
  (w w' : World) (p : FormattedProduct) (v : Variant) (o : VariantOption)
  (Hmapped : formatProduct d product w = (Ok p, w'))
  (Hv : In v (variants product))
  (Hsize : findOption "size" v = Some o)
  (Hempty : option_value o = "") :
  sizeOf v = "One Size" /\ In "One Size" (sizes p) /\ ~ In "" (sizes p).
Proof.
  apply formatProduct_Ok in Hmapped. destruct Hmapped as [_ ->].
  cbn [sizes mappedProduct].
  assert (sizeOf v = "One Size") as Hs.
  { pose proof (sizeOf_cases v) as C. rewrite Hsize, Hempty in C. exact C. }
  split; [exact Hs |]. split.
  - apply uniqueSizes_In. now exists v.
  - intros H. apply uniqueSizes_In in H. destruct H as [v' [_ H]].
    exact (sizeOf_not_empty v' H).
Qed.

(** The variant whose size option is the empty string. *)
Lemma empty_size_falls_back_witness :
  exists p w', formatProduct Sample.noKey Sample.emptySize start = (Ok p, w')
               /\ In "One Size" (sizes p) /\ ~ In "" (sizes p).
Proof.
  eexists. eexists. split; [rewrite formatProduct_run; reflexivity |].
  refine (proj2 (empty_size_falls_back Sample.noKey Sample.emptySize start _ _
                   (Sample.variant None (Some "") ["a.png"])
                   {| option_id := "size"; option_value := "" |} _ _ _ _)).
  - rewrite formatProduct_run. reflexivity.
  - left. reflexivity.
  - reflexivity.
  - reflexivity.
Defined.

(** *** The handler *)

Lemma serve_options d w :
  serve d "OPTIONS" w
  = (Ok {| status := 200; headers := corsHeaders; body := NoBody |}, w).
Proof. reflexivity. Qed.

Lemma serve_other d method w :
  method <> "OPTIONS" ->
  serve d method w
  = catch (tryBody d)
      (fun error =>
         ret {| status := 500;
                headers := ("Content-Type", "application/json") :: corsHeaders;
                body := JsonError (message error) |}) w.
Proof.
  intros H. unfold serve.
  destruct (String.eqb_spec method "OPTIONS"); [contradiction | reflexivity].
Qed.

(** C4: with the vendor API credential absent from the environment, the
    handler makes no outbound call to the vendor, and a request that
    reaches the credential check (a GET, and every method but the OPTIONS
    preflight) is answered with status 500 and the JSON body
    [{error: "Printful API key not configured"}].  (The preflight never
    reaches the check: it is answered first, with an empty 200.) *)
Theorem missing_credential (d : Deno) (method : string) (w : World)
  (Habsent : env_get d "PRINTFUL_API_KEY" = None) :
  outbound (snd (serve d method w)) = outbound w
  /\ (method <> "OPTIONS" ->
      serve d method w
      = (Ok {| status := 500;
               headers := ("Content-Type", "application/json") :: corsHeaders;
               body := JsonError "Printful API key not configured" |}, w))
  /\ (method = "OPTIONS" ->
      serve d method w
      = (Ok {| status := 200; headers := corsHeaders; body := NoBody |}, w)).
Proof.
  assert (method <> "OPTIONS" ->
      serve d method w
      = (Ok {| status := 500;
               headers := ("Content-Type", "application/json") :: corsHeaders;
               body := JsonError "Printful API key not configured" |}, w)) as H500.
  { intros H. rewrite (serve_other d method w H).
    unfold catch, tryBody. rewrite Habsent. reflexivity. }
  split; [| split].
  - destruct (String.eqb_spec method "OPTIONS") as [-> | Hm].
    + now rewrite serve_options.
    + now rewrite (H500 Hm).
  - exact H500.
  - intros ->. apply serve_options.
Qed.

(** A GET without the credential. *)
Lemma missing_credential_witness :
  env_get Sample.noKey "PRINTFUL_API_KEY" = None
  /\ serve Sample.noKey "GET" start
     = (Ok {| status := 500;
              headers := ("Content-Type", "application/json") :: corsHeaders;
              body := JsonError "Printful API key not configured" |}, start).
Proof.
  split; [reflexivity |].
  apply (proj1 (proj2 (missing_credential Sample.noKey "GET" start eq_refl))).
  discriminate.
Defined.

(** C9: the mapping of a product yields a result exactly when the product
    has at least one variant and every variant has at least one preview
    file.  For a request that reaches the mapping (not a preflight, the
    credential set, the vendor answering with a product list): if every
    product is well-formed the response is 200 with one mapped product per
    vendor product; if some product is not, the response is 500 with a
    JSON error body, and no product array. *)
Theorem mapping_all_or_nothing (d : Deno) (method printfulApiKey : string)
  (w : World) (response : FetchResponse) (products : list PrintfulProduct)
  (Hmethod : method <> "OPTIONS")
  (Hkey : env_get d "PRINTFUL_API_KEY" = Some printfulApiKey)
  (Hkey' : printfulApiKey <> "")
  (Hfetch : network d {| url := "https://api.printful.com/store/products";
                         request_headers :=
                           [("Authorization", ("Bearer " ++ printfulApiKey)%string)] |}
            = Ok response)
  (Hok : ok response = true)
  (Hpayload : payload response = Ok products) :
  (forall product w0,
     (exists p w1, formatProduct d product w0 = (Ok p, w1))
     <-> (variants product <> []
          /\ Forall (fun v => files v <> []) (variants product)))
  /\ (forall product w0,
        (exists message w1,
           formatProduct d product w0 = (Throw (TypeError message), w1))
        <-> (variants product = []
             \/ Exists (fun v => files v = []) (variants product)))
  /\ (Forall (fun product =>
                variants product <> []
                /\ Forall (fun v => files v <> []) (variants product)) products ->
      exists formattedProducts w',
        serve d method w
        = (Ok {| status := 200;
                 headers := ("Content-Type", "application/json") :: corsHeaders;
                 body := JsonProducts formattedProducts |}, w')
        /\ List.length formattedProducts = List.length products)
  /\ (Exists (fun product =>
                variants product = []
                \/ Exists (fun v => files v = []) (variants product)) products ->
      exists error w',
        serve d method w
        = (Ok {| status := 500;
                 headers := ("Content-Type", "application/json") :: corsHeaders;
                 body := JsonError error |}, w')).
Proof.
  assert (Hwf : forall product, Spec.wellFormed product = true
                <-> (variants product <> []
                     /\ Forall (fun v => files v <> []) (variants product))).
  { intros product. unfold Spec.wellFormed.
    rewrite andb_true_iff, forallb_forall, Forall_forall. split.
    - intros [H1 H2]. split.
      + destruct (variants product); [discriminate | discriminate].
      + intros v Hv. specialize (H2 v Hv). destruct (files v); [discriminate | discriminate].
    - intros [H1 H2]. split.
      + destruct (variants product); [congruence | reflexivity].
      + intros v Hv. specialize (H2 v Hv). destruct (files v); [congruence | reflexivity]. }
  assert (Hnwf : forall product, Spec.wellFormed product = false
                <-> (variants product = []
                     \/ Exists (fun v => files v = []) (variants product))).
  { intros product. unfold Spec.wellFormed.
    rewrite andb_false_iff, Exists_exists. split.
    - intros [H | H].
      + left. destruct (variants product); [reflexivity | discriminate].
      + right. apply not_true_iff_false in H.
        rewrite forallb_forall in H.
        induction (variants product) as [|v vs IH].
        * exfalso. apply H. intros v [].
        * destruct (files v) eqn:Hf.
          -- exists v. split; [now left | exact Hf].
          -- destruct IH as [v' [Hv' Hf']].
             ++ intros Hall. apply H. intros v1 [<- | Hin];
                  [now rewrite Hf | now apply Hall].
             ++ exists v'. split; [now right | exact Hf'].
    - intros [H | [v [Hv Hf]]].
      + left. now rewrite H.
      + right. apply not_true_iff_false. rewrite forallb_forall. intros Hall.
        specialize (Hall v Hv). now rewrite Hf in Hall. }
  assert (Hrun : serve d method w
                 = catch (fun w0 =>
                     match mapA (formatProduct d) products w0 with
                     | (Ok formattedProducts, w1) =>
                         (Ok {| status := 200;
                                headers := ("Content-Type", "application/json")
                                           :: corsHeaders;
                                body := JsonProducts formattedProducts |}, w1)
                     | (Throw e, w1) => (Throw e, w1)
                     end)
                     (fun error =>
                        ret {| status := 500;
                               headers := ("Content-Type", "application/json")
                                          :: corsHeaders;
                               body := JsonError (message error) |})
                     {| outbound := outbound w ++
                          [{| url := "https://api.printful.com/store/products";
                              request_headers :=
                                [("Authorization",
                                  ("Bearer " ++ printfulApiKey)%string)] |}];
                        objects := objects w |}).
  { rewrite (serve_other d method w Hmethod). unfold catch, tryBody.
    rewrite Hkey. destruct (String.eqb_spec printfulApiKey ""); [contradiction |].
    unfold bind, fetch. rewrite Hfetch, Hok. cbn [negb]. rewrite Hpayload.
    reflexivity. }
  split; [| split; [| split]].
  - intros product w0. rewrite formatProduct_total. apply Hwf.
  - intros product w0. rewrite <- Hnwf, formatProduct_run.
    destruct (Spec.wellFormed product); split.
    + intros [m [w1 H]]. discriminate.
    + discriminate.
    + reflexivity.
    + intros _. unfold formatError, undefinedRead.
      destruct (variants product); eauto.
  - intros Hall. rewrite Hrun. unfold catch.
    rewrite mapA_formatProduct_ok.
    + eexists. eexists. split; [reflexivity | apply length_map].
    + apply forallb_forall. rewrite Forall_forall in Hall.
      intros product Hin. apply Hwf, Hall, Hin.
  - intros Hex. rewrite Hrun. unfold catch.
    destruct (mapA_formatProduct_throw d products
                {| outbound := outbound w ++
                     [{| url := "https://api.printful.com/store/products";
                         request_headers :=
                           [("Authorization", ("Bearer " ++ printfulApiKey)%string)] |}];
                   objects := objects w |}) as [bad [w' [_ [_ E]]]].
    + apply not_true_iff_false. rewrite forallb_forall. intros Hall.
      apply Exists_exists in Hex. destruct Hex as [x [Hx Hbad]].
      apply Hnwf in Hbad. rewrite (Hall x Hx) in Hbad. discriminate.
    + rewrite E. eexists. eexists. reflexivity.
Qed.

(** The vendor answers with a well-formed product followed by one
    without variants. *)
Lemma mapping_all_or_nothing_witness :
  Spec.wellFormed Sample.noVariant = false
  /\ exists error w',
       serve Sample.withKey "GET" start
       = (Ok {| status := 500;
                headers := ("Content-Type", "application/json") :: corsHeaders;
                body := JsonError error |}, w').
Proof.
  split; [reflexivity |].
  apply (proj2 (proj2 (proj2
           (mapping_all_or_nothing Sample.withKey "GET" "secret" start
              Sample.vendorAnswer [Sample.twoReds; Sample.noVariant]
              ltac:(discriminate) eq_refl ltac:(discriminate)
              eq_refl eq_refl eq_refl)))).
  apply Exists_cons_tl, Exists_cons_hd. left. reflexivity.
Defined.

End NormalizerFacts.

(** ** The page's handlers *)

Module ControlsFacts.

Import Page Controls.

Lemma includes_app l l' x : Js.includes (l ++ l') x = Js.includes l x || Js.includes l' x.
Proof. unfold Js.includes. apply existsb_app. Qed.

Lemma includes_remove l x y :
  Js.includes (filter (fun c => negb (String.eqb c x)) l) y
  = negb (String.eqb y x) && Js.includes l y.
Proof.
  induction l as [|c l IH]; simpl.
  - now rewrite andb_false_r.
  - destruct (String.eqb_spec c x) as [-> | Hc]; simpl.
    + rewrite IH. destruct (String.eqb_spec y x); reflexivity.
    + rewrite IH. destruct (String.eqb_spec y c) as [-> | Hy]; simpl.
      * destruct (String.eqb_spec c x); [contradiction | reflexivity].
      * reflexivity.
Qed.

Lemma toggle_includes l x y :
  Js.includes (toggle l x) y
  = if String.eqb y x then negb (Js.includes l x) else Js.includes l y.
Proof.
  unfold toggle. destruct (Js.includes l x) eqn:E.
  - rewrite includes_remove. destruct (String.eqb y x); reflexivity.
  - rewrite includes_app. simpl.
    destruct (String.eqb_spec y x) as [-> | _]; simpl.
    + rewrite E. reflexivity.
    + now rewrite orb_false_r.
Qed.

Lemma remove_absent l x :
  ~ In x l -> filter (fun c => negb (String.eqb c x)) l = l.
Proof.
  induction l as [|c l IH]; intros H; [reflexivity |]. simpl in *.
  destruct (String.eqb_spec c x) as [-> | _]; [tauto |].
  simpl. f_equal. apply IH. tauto.
Qed.

Lemma toggle_absent l x : ~ In x l -> toggle l x = l ++ [x].
Proof.
  intros H. unfold toggle.
  destruct (Js.includes l x) eqn:E; [| reflexivity].
  apply JsFacts.includes_In in E. contradiction.
Qed.

Lemma toggle_present l x :
  In x l -> toggle l x = filter (fun c => negb (String.eqb c x)) l.
Proof.
  intros H. unfold toggle. apply JsFacts.includes_In in H. now rewrite H.
Qed.

Lemma toggle_NoDup l x : NoDup l -> NoDup (toggle l x).
Proof.
  intros H. unfold toggle. destruct (Js.includes l x) eqn:E.
  - now apply NoDup_filter.
  - apply NoDup_app; [exact H | constructor; [tauto | constructor] |].
    intros y Hy [<- | []].
    apply JsFacts.includes_In in Hy. congruence.
Qed.

Lemma length_remove l x :
  NoDup l -> In x l ->
  S (List.length (filter (fun c => negb (String.eqb c x)) l)) = List.length l.
Proof.
  induction 1 as [|c l Hc Hl IH]; intros Hx; [contradiction |]. simpl.
  destruct (String.eqb_spec c x) as [-> | Hne]; simpl.
  - now rewrite remove_absent.
  - f_equal. apply IH. destruct Hx; [contradiction | assumption].
Qed.

(** Each handler flips whether its argument is selected, leaves every
    other value of its dimension selected or not as it was, and leaves the
    other two dimensions untouched. *)
Theorem handlers_flip_membership (prev : ActiveFilters) (x y : string) :
  (Js.includes (categories (handleCategoryFilter x prev)) y
   = (if String.eqb y x then negb (Js.includes (categories prev) x)
      else Js.includes (categories prev) y)
   /\ prices (handleCategoryFilter x prev) = prices prev
   /\ af_sizes (handleCategoryFilter x prev) = af_sizes prev)
  /\ (Js.includes (prices (handlePriceFilter x prev)) y
      = (if String.eqb y x then negb (Js.includes (prices prev) x)
         else Js.includes (prices prev) y)
      /\ categories (handlePriceFilter x prev) = categories prev
      /\ af_sizes (handlePriceFilter x prev) = af_sizes prev)
  /\ (Js.includes (af_sizes (handleSizeFilter x prev)) y
      = (if String.eqb y x then negb (Js.includes (af_sizes prev) x)
         else Js.includes (af_sizes prev) y)
      /\ categories (handleSizeFilter x prev) = categories prev
      /\ prices (handleSizeFilter x prev) = prices prev).
Proof.
  repeat split; cbn [categories prices af_sizes handleCategoryFilter
                     handlePriceFilter handleSizeFilter];
    apply toggle_includes.
Qed.

(** Toggling a value that was not selected and toggling it again gives
    back the selection as it was, in the same order; whatever the
    selection, two toggles of the same value select the same values as
    before. *)
Theorem toggle_twice_restores (prev : ActiveFilters) (x : string)
  (Habsent : ~ In x (categories prev)) :
  handleCategoryFilter x (handleCategoryFilter x prev) = prev
  /\ forall (af : ActiveFilters) (z y : string),
       Js.includes (categories (handleCategoryFilter z (handleCategoryFilter z af))) y
       = Js.includes (categories af) y.
Proof.
  split.
  - unfold handleCategoryFilter. cbn [categories prices af_sizes].
    rewrite (toggle_absent _ _ Habsent), toggle_present
      by (apply in_or_app; right; now left).
    rewrite filter_app, (remove_absent _ _ Habsent). simpl.
    rewrite String.eqb_refl. simpl. rewrite app_nil_r. now destruct prev.
  - intros af z y. cbn [categories handleCategoryFilter].
    rewrite !toggle_includes, String.eqb_refl.
    destruct (String.eqb_spec y z) as [-> | _]; [apply negb_involutive | reflexivity].
Qed.

(** Starting from no filter, selecting hoodies and deselecting it. *)
Lemma toggle_twice_restores_witness :
  ~ In "hoodies" (categories clearAllFilters)
  /\ handleCategoryFilter "hoodies" (handleCategoryFilter "hoodies" clearAllFilters)
     = clearAllFilters.
Proof.
  split; [intros [] |].
  exact (proj1 (toggle_twice_restores clearAllFilters "hoodies" (fun H => H))).
Defined.

(** A selection without repetition stays so under the handlers, and the
    initial selection and the cleared one have none; on such a selection
    each handler call moves the count of active filters by exactly one, up
    when the value was not selected and down when it was. *)
Theorem handlers_count_by_one (prev : ActiveFilters) (x : string)
  (Hc : NoDup (categories prev)) (Hp : NoDup (prices prev))
  (Hs : NoDup (af_sizes prev)) :
  (NoDup (categories (handleCategoryFilter x prev))
   /\ NoDup (prices (handlePriceFilter x prev))
   /\ NoDup (af_sizes (handleSizeFilter x prev)))
  /\ (forall categoryParam, NoDup (categories (initialFilters categoryParam)))
  /\ (if Js.includes (categories prev) x
      then S (totalActiveFilters (handleCategoryFilter x prev)) = totalActiveFilters prev
      else totalActiveFilters (handleCategoryFilter x prev) = S (totalActiveFilters prev))
  /\ (if Js.includes (prices prev) x
      then S (totalActiveFilters (handlePriceFilter x prev)) = totalActiveFilters prev
      else totalActiveFilters (handlePriceFilter x prev) = S (totalActiveFilters prev))
  /\ (if Js.includes (af_sizes prev) x
      then S (totalActiveFilters (handleSizeFilter x prev)) = totalActiveFilters prev
      else totalActiveFilters (handleSizeFilter x prev) = S (totalActiveFilters prev)).
Proof.
  split; [| split; [| split; [| split]]].
  - repeat split; now apply toggle_NoDup.
  - intros [c|]; simpl; [| constructor].
    destruct (String.eqb c ""); repeat constructor. intros [].
  - unfold totalActiveFilters, handleCategoryFilter, toggle.
    cbn [categories prices af_sizes].
    destruct (Js.includes (categories prev) x) eqn:E.
    + apply JsFacts.includes_In in E. pose proof (length_remove _ x Hc E). lia.
    + rewrite length_app. simpl. lia.
  - unfold totalActiveFilters, handlePriceFilter, toggle.
    cbn [categories prices af_sizes].
    destruct (Js.includes (prices prev) x) eqn:E.
    + apply JsFacts.includes_In in E. pose proof (length_remove _ x Hp E). lia.
    + rewrite length_app. simpl. lia.
  - unfold totalActiveFilters, handleSizeFilter, toggle.
    cbn [categories prices af_sizes].
    destruct (Js.includes (af_sizes prev) x) eqn:E.
    + apply JsFacts.includes_In in E. pose proof (length_remove _ x Hs E). lia.
    + rewrite length_app. simpl. lia.
Qed.

(** One category selected through the URL, then a price band added. *)
Lemma handlers_count_by_one_witness :
  NoDup (categories (initialFilters (Some "hoodies")))
  /\ totalActiveFilters (handlePriceFilter "under-50" (initialFilters (Some "hoodies")))
     = 2.
Proof.
  split; [repeat constructor; intros [] |].
  exact (proj1 (proj2 (proj2 (proj2
           (handlers_count_by_one (initialFilters (Some "hoodies")) "under-50"
              ltac:(repeat constructor; intros [])
              ltac:(constructor) ltac:(constructor)))))).
Defined.

(** *** Loading, and which view is shown *)

(** Once [fetchProducts] has settled the spinner is gone, and the filters
    and the sort key are as they were.  If the response was ok and its
    body parsed, the products are the parsed body, the error is cleared
    and the listing is shown; otherwise (rejection, status not ok, body not
    JSON) the products are as they were and the error view is shown with
    its fixed message. *)
Theorem fetch_settles (net : FetchOutcome) (st : State) :
  loading (fetchProducts net st) = false
  /\ render (fetchProducts net st) <> Spinner
  /\ activeFilters (fetchProducts net st) = activeFilters st
  /\ sortBy (fetchProducts net st) = sortBy st
  /\ match net with
     | Rejected =>
         products (fetchProducts net st) = products st
         /\ render (fetchProducts net st)
            = TryAgain "Failed to load products. Please try again later."
     | Responded response =>
         match ok response, json response with
         | true, Some data =>
             products (fetchProducts net st) = data
             /\ error (fetchProducts net st) = None
             /\ render (fetchProducts net st) = Listing
         | _, _ =>
             products (fetchProducts net st) = products st
             /\ render (fetchProducts net st)
                = TryAgain "Failed to load products. Please try again later."
         end
     end.
Proof.
  split; [reflexivity |]. split.
  - unfold render, fetchProducts. cbn [loading error].
    destruct net as [|[[] [data|]]]; cbn; discriminate.
  - split; [destruct net as [|[[] [data|]]]; reflexivity |].
    split; [destruct net as [|[[] [data|]]]; reflexivity |].
    destruct net as [|[[] [data|]]]; cbn; repeat split.
Qed.

End ControlsFacts.

(** ** How the filters combine *)

Module PipelineFacts.

Import Page Controls.

Lemma filter_filter {A} (f g : A -> bool) l :
  filter f (filter g l) = filter (fun x => g x && f x) l.
Proof.
  induction l as [|x l IH]; [reflexivity |]. simpl.
  destruct (g x); simpl; [destruct (f x) |]; now rewrite IH.
Qed.

Lemma guarded_filter {A} (sel : list string) (f : A -> bool) l :
  (if (0 <? List.length sel)%nat then filter f l else l)
  = filter (fun x => Nat.eqb (List.length sel) 0 || f x) l.
Proof.
  destruct sel as [|c sel]; simpl.
  - induction l as [|x l IH]; [reflexivity | simpl; now rewrite <- IH].
  - reflexivity.
Qed.

Lemma applyFilters_passes af l : applyFilters af l = filter (Extra.passes af) l.
Proof.
  unfold applyFilters, filterSizes, filterPrices, filterCategories.
  rewrite !guarded_filter, !filter_filter. apply filter_ext.
  intros p. unfold Extra.passes. apply andb_assoc.
Qed.

Lemma passes_iff af p :
  Extra.passes af p = true <->
  (categories af = [] \/ In (category p) (categories af))
  /\ (prices af = [] \/
      exists band, In band (prices af) /\ Spec.inBand band (price p) = true)
  /\ (af_sizes af = [] \/
      exists size, In size (sizes p) /\ In size (af_sizes af)).
Proof.
  unfold Extra.passes. rewrite !andb_true_iff, !orb_true_iff, !Nat.eqb_eq,
    !length_zero_iff_nil.
  unfold categoryPredicate, sizePredicate, Js.some.
  rewrite JsFacts.includes_In, PageFacts.pricePredicate_any, !existsb_exists.
  split.
  - intros [[Hc Hp] Hs]. split; [exact Hc |]. split; [exact Hp |].
    destruct Hs as [Hs | [size [H1 H2]]]; [now left | right].
    exists size. split; [exact H1 | now apply JsFacts.includes_In].
  - intros [Hc [Hp Hs]]. split; [split; assumption |].
    destruct Hs as [Hs | [size [H1 H2]]]; [now left | right].
    exists size. split; [exact H1 | now apply JsFacts.includes_In].
Qed.

(** The filter stage keeps, in their order, exactly the products that
    pass in every dimension: a dimension is passed when nothing is
    selected in it or when one of the selected values fits (the product's
    category is selected; one selected band holds its price; one of its
    sizes is selected). *)
Theorem filters_and_across_or_within (af : ActiveFilters) (l : list Product) :
  applyFilters af l = filter (Extra.passes af) l
  /\ forall p, In p (applyFilters af l) <->
       In p l
       /\ (categories af = [] \/ In (category p) (categories af))
       /\ (prices af = [] \/
           exists band, In band (prices af) /\ Spec.inBand band (price p) = true)
       /\ (af_sizes af = [] \/
           exists size, In size (sizes p) /\ In size (af_sizes af)).
Proof.
  split; [apply applyFilters_passes |].
  intros p. rewrite applyFilters_passes, filter_In, passes_iff. reflexivity.
Qed.

Lemma filter_idempotent {A} (f : A -> bool) l : filter f (filter f l) = filter f l.
Proof.
  rewrite filter_filter. apply filter_ext. intros x. now destruct (f x).
Qed.

Lemma filter_comm {A} (f g : A -> bool) l : filter f (filter g l) = filter g (filter f l).
Proof.
  rewrite !filter_filter. apply filter_ext. intros x. apply andb_comm.
Qed.

Lemma filter_none {A} (f : A -> bool) l :
  filter f (filter (fun x => negb (f x)) l) = [].
Proof.
  rewrite filter_filter. induction l as [|x l IH]; [reflexivity |].
  simpl. now destruct (f x).
Qed.

Lemma filter_none' {A} (f : A -> bool) l :
  filter (fun x => negb (f x)) (filter f l) = [].
Proof.
  rewrite filter_filter. induction l as [|x l IH]; [reflexivity |].
  simpl. now destruct (f x).
Qed.

Lemma stablePartition_filter {A} (f g : A -> bool) l :
  filter g (Spec.stablePartition f l) = Spec.stablePartition f (filter g l).
Proof.
  unfold Spec.stablePartition.
  now rewrite filter_app, (filter_comm g f), (filter_comm g (fun x => negb (f x))).
Qed.

Lemma stablePartition_idempotent {A} (f : A -> bool) l :
  Spec.stablePartition f (Spec.stablePartition f l) = Spec.stablePartition f l.
Proof.
  unfold Spec.stablePartition.
  rewrite !filter_app, !filter_idempotent, filter_none, filter_none'.
  now rewrite app_nil_r.
Qed.

(** With the key "newest" it does not matter whether the list is filtered
    before or after it is sorted, and running the whole pipeline on its own
    output changes nothing; filtering twice is filtering once. *)
Theorem newest_commutes_with_filters (af : ActiveFilters) (l : list Product) :
  applySort "newest" (applyFilters af l) = applyFilters af (applySort "newest" l)
  /\ filterSort (filterSort l af "newest") af "newest" = filterSort l af "newest"
  /\ applyFilters af (applyFilters af l) = applyFilters af l.
Proof.
  assert (Hs : forall l', applySort "newest" l' = Spec.stablePartition isNew l')
    by (intros l'; apply PageFacts.sort_newest).
  assert (Hi : applyFilters af (applyFilters af l) = applyFilters af l)
    by (rewrite !applyFilters_passes; apply filter_idempotent).
  split; [| split; [| exact Hi]].
  - rewrite !Hs, !applyFilters_passes. symmetry. apply stablePartition_filter.
  - unfold filterSort. rewrite !Hs, !applyFilters_passes.
    rewrite stablePartition_filter, filter_idempotent.
    apply stablePartition_idempotent.
Qed.

Lemma inBand_nan band p : PrimFloat.is_nan p = true -> Spec.inBand band p = false.
Proof.
  intros H.
  pose proof (PageFacts.nan_in_no_band band (Sample.tee p false) H) as N.
  now rewrite PageFacts.pricePredicate_one in N.
Qed.

(** When all four bands are selected the price callback accepts exactly
    the products whose price is a number (not NaN): on such products
    selecting every band filters as selecting none. *)
Theorem all_bands_keep_real_prices (af : ActiveFilters) (l : list Product)
  (Hall : forall band, In band Spec.bands -> In band (prices af)) :
  (forall p, pricePredicate af p = negb (PrimFloat.is_nan (price p)))
  /\ filterPrices af l = filter (fun p => negb (PrimFloat.is_nan (price p))) l
  /\ (Forall (fun p => PrimFloat.is_nan (price p) = false) l -> filterPrices af l = l).
Proof.
  assert (Hp : forall p, pricePredicate af p = negb (PrimFloat.is_nan (price p))).
  { intros p. rewrite PageFacts.pricePredicate_any.
    destruct (PrimFloat.is_nan (price p)) eqn:Hnan; simpl.
    - generalize (prices af) as bs. induction bs as [|b bs IH]; [reflexivity |].
      simpl. now rewrite (inBand_nan b _ Hnan).
    - apply existsb_exists.
      destruct (PageFacts.inBand_exactly_one _ Hnan) as [band [Hb _]].
      exists band. split; [| exact Hb].
      apply Hall. exact (PageFacts.inBand_bands _ _ Hb). }
  assert (Hf : filterPrices af l
               = filter (fun p => negb (PrimFloat.is_nan (price p))) l).
  { unfold filterPrices.
    destruct (prices af) as [|b bs] eqn:E.
    - exfalso. apply (Hall "under-50"). simpl. tauto.
    - simpl. apply filter_ext. exact Hp. }
  split; [exact Hp |]. split; [exact Hf |].
  intros Hreal. rewrite Hf. clear Hf.
  induction Hreal as [|p l' Hp' _ IH]; [reflexivity |].
  simpl. rewrite Hp'. simpl. now rewrite IH.
Qed.

(** All four bands selected, on a product priced 100. *)
Lemma all_bands_keep_real_prices_witness :
  filterPrices (Spec.choosing Spec.bands) [Sample.tee 100 false]
  = [Sample.tee 100 false].
Proof.
  refine (proj2 (proj2 (all_bands_keep_real_prices (Spec.choosing Spec.bands)
                          [Sample.tee 100 false] (fun band H => H))) _).
  repeat constructor.
Defined.

(** Widening a selection never hides a product: if in each dimension the
    new selection is empty, or the old one was not and is contained in the
    new one, every product shown before is shown after. *)
Theorem widening_keeps_products (af af' : ActiveFilters) (l : list Product)
  (Hc : Extra.widens (categories af) (categories af'))
  (Hp : Extra.widens (prices af) (prices af'))
  (Hs : Extra.widens (af_sizes af) (af_sizes af')) :
  incl (applyFilters af l) (applyFilters af' l).
Proof.
  intros p. rewrite !applyFilters_passes, !filter_In, !passes_iff.
  intros [Hin [H1 [H2 H3]]]. split; [exact Hin |].
  unfold Extra.widens in *. split; [| split].
  - destruct Hc as [-> | [Hne Hincl]]; [now left |].
    destruct H1 as [H1 | H1]; [contradiction | right; now apply Hincl].
  - destruct Hp as [-> | [Hne Hincl]]; [now left |].
    destruct H2 as [H2 | [band [Hb Hb']]]; [contradiction | right].
    exists band. split; [now apply Hincl | exact Hb'].
  - destruct Hs as [-> | [Hne Hincl]]; [now left |].
    destruct H3 as [H3 | [size [Hz Hz']]]; [contradiction | right].
    exists size. split; [exact Hz | now apply Hincl].
Qed.

(** With under-50 selected, selecting 50-100 as well keeps the cheap
    product on show. *)
Lemma widening_keeps_products_witness :
  In (Sample.tee 20 false)
     (applyFilters (handlePriceFilter "50-100" (Spec.choosing ["under-50"]))
        [Sample.tee 20 false; Sample.tee 80 true]).
Proof.
  apply (widening_keeps_products (Spec.choosing ["under-50"])
           (handlePriceFilter "50-100" (Spec.choosing ["under-50"]))
           [Sample.tee 20 false; Sample.tee 80 true]).
  - left. reflexivity.
  - right. split; [discriminate | intros b [<- | []]; left; reflexivity].
  - left. reflexivity.
  - left. reflexivity.
Defined.

(** The count of active filters is zero exactly when nothing is selected
    in any dimension (the state [clearAllFilters] sets), and then the
    filter stage shows every product. *)
Theorem badge_zero_iff_clear (af : ActiveFilters) (l : list Product) :
  (totalActiveFilters af = 0 <-> af = clearAllFilters)
  /\ (totalActiveFilters af = 0 -> applyFilters af l = l).
Proof.
  assert (totalActiveFilters af = 0 -> af = clearAllFilters) as H.
  { unfold totalActiveFilters, clearAllFilters. destruct af as [cs ps ss]. simpl.
    intros H. assert (List.length cs = 0 /\ List.length ps = 0 /\ List.length ss = 0)
      as [Hc [Hp Hs]] by lia.
    apply length_zero_iff_nil in Hc, Hp, Hs. now subst. }
  split; [split; [exact H | intros ->; reflexivity] |].
  intros H0. rewrite (H H0). reflexivity.
Qed.

End PipelineFacts.

(** ** The handler's answers *)

Module HandlerFacts.

Import Normalizer Mapped.

Lemma serve_without_credential d method w :
  method <> "OPTIONS" -> Extra.credential d = None ->
  serve d method w = (Ok (Extra.failure "Printful API key not configured"), w).
Proof.
  intros Hm Hc. rewrite (NormalizerFacts.serve_other d method w Hm).
  unfold Extra.credential in Hc. unfold catch, tryBody.
  destruct (env_get d "PRINTFUL_API_KEY") as [k|]; [| reflexivity].
  destruct (String.eqb k ""); [reflexivity | discriminate].
Qed.

Lemma serve_with_credential d method w k :
  method <> "OPTIONS" -> Extra.credential d = Some k ->
  serve d method w
  = let w1 := {| outbound := outbound w ++ [Extra.vendorRequest k];
                 objects := objects w |} in
    match network d (Extra.vendorRequest k) with
    | Throw e => (Ok (Extra.failure (message e)), w1)
    | Ok response =>
        if ok response
        then match payload response with
             | Throw e => (Ok (Extra.failure (message e)), w1)
             | Ok products =>
                 match mapA (formatProduct d) products w1 with
                 | (Ok formattedProducts, w2) =>
                     (Ok (Extra.success formattedProducts), w2)
                 | (Throw e, w2) => (Ok (Extra.failure (message e)), w2)
                 end
             end
        else (Ok (Extra.failure
                    ("Printful API error: " ++ statusText response)%string), w1)
    end.
Proof.
  intros Hm Hc. rewrite (NormalizerFacts.serve_other d method w Hm).
  unfold Extra.credential in Hc. unfold catch, tryBody.
  destruct (env_get d "PRINTFUL_API_KEY") as [k'|]; [| discriminate].
  destruct (String.eqb k' "") eqn:E; [discriminate |].
  injection Hc as ->. unfold bind, fetch. fold (Extra.vendorRequest k).
  cbv zeta.
  destruct (network d (Extra.vendorRequest k)) as [response | e]; [| reflexivity].
  destruct (ok response); [| reflexivity]. cbn [negb].
  destruct (payload response) as [products | e]; [| reflexivity].
  destruct (mapA (formatProduct d) products _) as [[fps | e] w2]; reflexivity.
Qed.

Lemma mapA_formatProduct_outbound d products : forall w,
  outbound (snd (mapA (formatProduct d) products w)) = outbound w.
Proof.
  induction products as [|product products IH]; intros w; [reflexivity |].
  rewrite NormalizerFacts.mapA_cons, NormalizerFacts.formatProduct_run.
  destruct (Spec.wellFormed product); [| reflexivity].
  specialize (IH (allocated w (colorsOf d product))).
  destruct (mapA (formatProduct d) products (allocated w (colorsOf d product)))
    as [[ys | e] w2]; exact IH.
Qed.

Lemma mapA_formatProduct_result d products w :
  (forallb Spec.wellFormed products = true
   /\ fst (mapA (formatProduct d) products w) = Ok (map (mappedProduct d) products))
  \/ exists message, fst (mapA (formatProduct d) products w) = Throw (TypeError message).
Proof.
  destruct (forallb Spec.wellFormed products) eqn:E.
  - left. split; [reflexivity |].
    now rewrite (NormalizerFacts.mapA_formatProduct_ok d products w E).
  - right.
    destruct (NormalizerFacts.mapA_formatProduct_throw d products w E)
      as [bad [w' [_ [_ H]]]].
    rewrite H. unfold formatError, undefinedRead.
    destruct (variants bad); eexists; reflexivity.
Qed.

(** Whatever the request and the surroundings, the handler answers (no
    exception leaves it), and the answer is one of three: the empty 200 of
    the preflight, exactly when the method is OPTIONS; a 200 with a
    product array; or a 500 with a JSON error body.  Each of the three
    carries the cross-origin headers. *)
Theorem serve_always_answers (d : Deno) (method : string) (w : World) :
  exists r w',
    serve d method w = (Ok r, w')
    /\ incl corsHeaders (headers r)
    /\ (r = Extra.preflight <-> method = "OPTIONS")
    /\ (r = Extra.preflight
        \/ (exists formattedProducts, r = Extra.success formattedProducts)
        \/ (exists error, r = Extra.failure error)).
Proof.
  destruct (String.eqb_spec method "OPTIONS") as [-> | Hm].
  - exists Extra.preflight, w. split; [reflexivity |].
    split; [apply incl_refl |]. split; [tauto | now left].
  - assert (forall r, (exists e, r = Extra.failure e)
                      \/ (exists fps, r = Extra.success fps) ->
              incl corsHeaders (headers r)
              /\ (r = Extra.preflight <-> method = "OPTIONS")
              /\ (r = Extra.preflight
                  \/ (exists fps, r = Extra.success fps)
                  \/ (exists e, r = Extra.failure e))) as Hshape.
    { intros r [[e ->] | [fps ->]].
      - split; [apply incl_tl, incl_refl |]. split; [| right; right; eauto].
        split; [discriminate | contradiction].
      - split; [apply incl_tl, incl_refl |]. split; [| right; left; eauto].
        split; [discriminate | contradiction]. }
    destruct (Extra.credential d) as [k|] eqn:Hc.
    + rewrite (serve_with_credential d method w k Hm Hc). cbv zeta.
      destruct (network d (Extra.vendorRequest k)) as [response | e];
        [| eexists; eexists; split; [reflexivity | apply Hshape; left; eauto]].
      destruct (ok response);
        [| eexists; eexists; split; [reflexivity | apply Hshape; left; eauto]].
      destruct (payload response) as [products | e];
        [| eexists; eexists; split; [reflexivity | apply Hshape; left; eauto]].
      destruct (mapA (formatProduct d) products _) as [[fps | e] w2];
        eexists; eexists; (split; [reflexivity | apply Hshape; eauto]).
    + rewrite (serve_without_credential d method w Hm Hc).
      eexists. eexists. split; [reflexivity | apply Hshape; left; eauto].
Qed.

(** The handler makes no outbound call for a preflight or without a
    (non-empty) credential, and otherwise exactly one: a request to the
    vendor's product list carrying the credential as a bearer token.  A
    failure of any kind is not followed by a second attempt. *)
Theorem one_outbound_call (d : Deno) (method : string) (w : World) :
  outbound (snd (serve d method w))
  = outbound w ++
    (if String.eqb method "OPTIONS" then []
     else match Extra.credential d with
          | Some printfulApiKey =>
              [{| url := "https://api.printful.com/store/products";
                  request_headers :=
                    [("Authorization", ("Bearer " ++ printfulApiKey)%string)] |}]
          | None => []
          end).
Proof.
  destruct (String.eqb_spec method "OPTIONS") as [-> | Hm].
  - simpl. now rewrite app_nil_r.
  - destruct (Extra.credential d) as [k|] eqn:Hc.
    + rewrite (serve_with_credential d method w k Hm Hc). cbv zeta.
      fold (Extra.vendorRequest k).
      destruct (network d (Extra.vendorRequest k)) as [response | e]; [| reflexivity].
      destruct (ok response); [| reflexivity].
      destruct (payload response) as [products | e]; [| reflexivity].
      pose proof (mapA_formatProduct_outbound d products
                    {| outbound := outbound w ++ [Extra.vendorRequest k];
                       objects := objects w |}) as Ho.
      destruct (mapA (formatProduct d) products _) as [[fps | e] w2]; exact Ho.
    + rewrite (serve_without_credential d method w Hm Hc). simpl.
      now rewrite app_nil_r.
Qed.

(** With the credential set, a request that is not a preflight fails
    with status 500 when the vendor cannot be reached (the error's message
    is passed on), when the vendor's status is not ok ("Printful API
    error: " followed by the status text; the body is not read), and when
    the body cannot be read as a product list; no product is mapped. *)
Theorem upstream_failure (d : Deno) (method printfulApiKey : string) (w : World)
  (Hmethod : method <> "OPTIONS")
  (Hkey : Extra.credential d = Some printfulApiKey) :
  let w1 := {| outbound := outbound w ++ [Extra.vendorRequest printfulApiKey];
               objects := objects w |} in
  (forall e, network d (Extra.vendorRequest printfulApiKey) = Throw e ->
     serve d method w = (Ok (Extra.failure (message e)), w1))
  /\ (forall response,
        network d (Extra.vendorRequest printfulApiKey) = Ok response ->
        ok response = false ->
        serve d method w
        = (Ok (Extra.failure ("Printful API error: " ++ statusText response)%string),
           w1))
  /\ (forall response e,
        network d (Extra.vendorRequest printfulApiKey) = Ok response ->
        ok response = true -> payload response = Throw e ->
        serve d method w = (Ok (Extra.failure (message e)), w1)).
Proof.
  cbv zeta. repeat split.
  - intros e He. rewrite (serve_with_credential d method w _ Hmethod Hkey).
    cbv zeta. now rewrite He.
  - intros response Hr Hok.
    rewrite (serve_with_credential d method w _ Hmethod Hkey).
    cbv zeta. now rewrite Hr, Hok.
  - intros response e Hr Hok Hp.
    rewrite (serve_with_credential d method w _ Hmethod Hkey).
    cbv zeta. now rewrite Hr, Hok, Hp.
Qed.

(** The vendor answers 401 Unauthorized, with a body that would map. *)
Lemma upstream_failure_witness :
  Extra.credential Extra.refusingDeno = Some "secret"
  /\ fst (serve Extra.refusingDeno "GET" start)
     = Ok (Extra.failure "Printful API error: Unauthorized").
Proof.
  split; [reflexivity |].
  pose proof (proj1 (proj2 (upstream_failure Extra.refusingDeno "GET" "secret" start
                              ltac:(discriminate) eq_refl))
                _ eq_refl eq_refl) as H.
  now rewrite H.
Defined.

(** A credential set to the empty string counts as missing: a request
    that is not a preflight is answered with the configuration error, and
    the world is as it was (no outbound call). *)
Theorem empty_credential_is_missing (d : Deno) (method : string) (w : World)
  (Hmethod : method <> "OPTIONS")
  (Hempty : env_get d "PRINTFUL_API_KEY" = Some "") :
  serve d method w = (Ok (Extra.failure "Printful API key not configured"), w).
Proof.
  apply serve_without_credential; [exact Hmethod |].
  unfold Extra.credential. now rewrite Hempty.
Qed.

(** A GET with the credential set to the empty string. *)
Lemma empty_credential_is_missing_witness :
  env_get Extra.emptyKeyDeno "PRINTFUL_API_KEY" = Some ""
  /\ serve Extra.emptyKeyDeno "GET" start
     = (Ok (Extra.failure "Printful API key not configured"), start).
Proof.
  split; [reflexivity |].
  apply (empty_credential_is_missing Extra.emptyKeyDeno "GET" start);
    [discriminate | reflexivity].
Defined.

(** *** What a product array holds *)

Lemma serve_products d method w r w' formattedProducts :
  serve d method w = (Ok r, w') ->
  body r = JsonProducts formattedProducts ->
  exists products,
    forallb Spec.wellFormed products = true
    /\ formattedProducts = map (mappedProduct d) products.
Proof.
  intros Hs Hb.
  destruct (String.eqb_spec method "OPTIONS") as [-> | Hm].
  - rewrite NormalizerFacts.serve_options in Hs. injection Hs as <- _. discriminate.
  - destruct (Extra.credential d) as [k|] eqn:Hc.
    + rewrite (serve_with_credential d method w k Hm Hc) in Hs. cbv zeta in Hs.
      destruct (network d (Extra.vendorRequest k)) as [response | e];
        [| injection Hs as <- _; discriminate].
      destruct (ok response); [| injection Hs as <- _; discriminate].
      destruct (payload response) as [products | e];
        [| injection Hs as <- _; discriminate].
      destruct (mapA_formatProduct_result d products
                  {| outbound := outbound w ++ [Extra.vendorRequest k];
                     objects := objects w |}) as [[Hwf Hok] | [m Hthrow]];
        destruct (mapA (formatProduct d) products _) as [[fps | e] w2];
        simpl in *; try discriminate.
      * injection Hok as ->. injection Hs as <- _. simpl in Hb.
        injection Hb as <-. exists products. now split.
      * injection Hs as <- _. discriminate.
    + rewrite (serve_without_credential d method w Hm Hc) in Hs.
      injection Hs as <- _. discriminate.
Qed.

Section SetOrder.

Variable A : Type.
Variable eqb : A -> A -> bool.
Hypothesis eqb_spec : forall x y, eqb x y = true <-> x = y.

Lemma fold_set_add_length l : forall acc,
  List.length (fold_left (Js.set_add eqb) l acc) <= List.length acc + List.length l.
Proof.
  induction l as [|y l IH]; intros acc; simpl; [lia |].
  specialize (IH (Js.set_add eqb acc y)). unfold Js.set_add in *.
  destruct (existsb (eqb y) acc); [lia |].
  rewrite length_app in IH. simpl in IH. lia.
Qed.

Lemma newSet_length l : List.length (Js.newSet eqb l) <= List.length l.
Proof. apply (fold_set_add_length l []). Qed.

Lemma fold_set_add_head x l : forall acc,
  fold_left (Js.set_add eqb) l (x :: acc)
  = x :: fold_left (Js.set_add eqb) (filter (fun y => negb (eqb y x)) l) acc.
Proof.
  induction l as [|y l IH]; intros acc; [reflexivity |].
  cbn [fold_left filter]. unfold Js.set_add at 2. cbn [existsb].
  destruct (eqb y x); cbn [orb negb].
  - apply IH.
  - cbn [fold_left]. rewrite <- IH. unfold Js.set_add at 3.
    destruct (existsb (eqb y) acc); reflexivity.
Qed.

Lemma existsb_remove x y acc :
  eqb y x = false ->
  existsb (eqb y) (filter (fun a => negb (eqb a x)) acc) = existsb (eqb y) acc.
Proof.
  intros H. induction acc as [|a acc IH]; [reflexivity |]. simpl.
  destruct (eqb a x) eqn:Ea; simpl; rewrite IH; [| reflexivity].
  destruct (eqb y a) eqn:Ey; [| reflexivity].
  apply eqb_spec in Ey. subst a. congruence.
Qed.

Lemma fold_set_add_remove x l : forall acc,
  fold_left (Js.set_add eqb) (filter (fun y => negb (eqb y x)) l)
    (filter (fun y => negb (eqb y x)) acc)
  = filter (fun y => negb (eqb y x)) (fold_left (Js.set_add eqb) l acc).
Proof.
  induction l as [|y l IH]; intros acc; [reflexivity |].
  cbn [fold_left filter]. rewrite <- IH.
  destruct (eqb y x) eqn:E; cbn [negb].
  - f_equal. unfold Js.set_add. destruct (existsb (eqb y) acc); [reflexivity |].
    rewrite filter_app. simpl. rewrite E. simpl. now rewrite app_nil_r.
  - cbn [fold_left]. f_equal. unfold Js.set_add.
    rewrite (existsb_remove x y acc E).
    destruct (existsb (eqb y) acc); [reflexivity |].
    rewrite filter_app. simpl. now rewrite E.
Qed.

(** [[...new Set(x :: l)]] is [x] followed by [[...new Set(l)]] without
    [x]: the elements come in the order of their first occurrence. *)
Lemma newSet_cons x l :
  Js.newSet eqb (x :: l)
  = x :: filter (fun y => negb (eqb y x)) (Js.newSet eqb l).
Proof.
  unfold Js.newSet. cbn [fold_left]. unfold Js.set_add at 2. cbn [existsb app].
  rewrite fold_set_add_head. f_equal. apply (fold_set_add_remove x l []).
Qed.

End SetOrder.

(** The mapped [sizes] come in the order in which they first occur among
    the variants: the size of the first variant, then the sizes of the
    remaining variants without that one. *)
Theorem sizes_in_first_occurrence_order (id name : string) (v : Variant)
  (vs : list Variant) :
  uniqueSizes {| printful_id := id; printful_name := name; variants := v :: vs |}
  = sizeOf v ::
    filter (fun s => negb (String.eqb s (sizeOf v)))
      (uniqueSizes {| printful_id := id; printful_name := name; variants := vs |})
  /\ uniqueSizes {| printful_id := id; printful_name := name; variants := [] |} = [].
Proof.
  split; [| reflexivity]. unfold uniqueSizes. cbn [variants map].
  apply (newSet_cons _ String.eqb String.eqb_eq).
Qed.

Lemma colorEntry_lowercase d v c :
  In c (Spec.colorEntry d v) -> color_value c = toLowerCase d (color_name c).
Proof.
  unfold Spec.colorEntry. destruct (findOption "color" v); [| intros []].
  intros [<- | []]. reflexivity.
Qed.

Lemma colorsOf_length d product :
  List.length (colorsOf d product) <= List.length (variants product).
Proof.
  unfold colorsOf. induction (variants product) as [|v vs IH]; [reflexivity |].
  cbn [flat_map]. rewrite length_app. unfold Spec.colorEntry at 1.
  destruct (findOption "color" v); simpl; lia.
Qed.

(** Every product of a product array the handler sends has: the
    placeholders (category "t-shirts", the tag "printful", in stock, not
    new, not limited, the name as description); at least one image, the
    first of [imageUrls] being [imageUrl]; at least one size, no size
    twice, and no more sizes or colors than images; and every color's
    value is its name in lower case. *)
Theorem catalog_shape (d : Deno) (method : string) (w w' : World) (r : Response)
  (formattedProducts : list FormattedProduct)
  (Hserve : serve d method w = (Ok r, w'))
  (Hbody : body r = JsonProducts formattedProducts) :
  Forall (fun p =>
            (category p = "t-shirts" /\ tags p = ["printful"] /\ inStock p = true
             /\ isNew p = false /\ isLimited p = false
             /\ description p = product_name p)
            /\ (exists rest, imageUrls p = imageUrl p :: rest)
            /\ (sizes p <> [] /\ NoDup (sizes p)
                /\ List.length (sizes p) <= List.length (imageUrls p))
            /\ (List.length (colors p) <= List.length (imageUrls p)
                /\ forall c, In c (colors p) ->
                     color_value c = toLowerCase d (color_name c)))
         formattedProducts.
Proof.
  destruct (serve_products d method w r w' formattedProducts Hserve Hbody)
    as [products [Hwf ->]].
  apply Forall_forall. intros p Hp. apply in_map_iff in Hp.
  destruct Hp as [product [<- Hin]].
  rewrite forallb_forall in Hwf. specialize (Hwf product Hin).
  unfold Spec.wellFormed in Hwf. apply andb_true_iff in Hwf. destruct Hwf as [Hv _].
  cbn [category tags inStock isNew isLimited description product_name imageUrls
       imageUrl sizes colors mappedProduct].
  split; [repeat split |]. split; [| split].
  - unfold mainVariantOf. destruct (variants product) as [|v vs]; [discriminate |].
    simpl. eauto.
  - split; [| split].
    + destruct (variants product) as [|v vs] eqn:E; [discriminate |].
      intros Hnil.
      assert (In (sizeOf v) (uniqueSizes product)) as Hs.
      { apply NormalizerFacts.uniqueSizes_In. exists v. rewrite E. split;
          [now left | reflexivity]. }
      rewrite Hnil in Hs. contradiction.
    + apply NormalizerFacts.uniqueSizes_NoDup.
    + unfold uniqueSizes. rewrite length_map.
      etransitivity; [apply newSet_length |]. now rewrite length_map.
  - split.
    + rewrite length_map. apply colorsOf_length.
    + intros c Hc. unfold colorsOf in Hc. apply in_flat_map in Hc.
      destruct Hc as [v [_ Hc]]. now apply colorEntry_lowercase in Hc.
Qed.

(** The vendor answers with two well-formed products. *)
Lemma catalog_shape_witness :
  exists r w' fps,
    serve Extra.catalogDeno "GET" start = (Ok r, w')
    /\ body r = JsonProducts fps
    /\ Forall (fun p => isNew p = false /\ category p = "t-shirts") fps.
Proof.
  eexists. eexists. eexists. split; [reflexivity |]. split; [reflexivity |].
  eapply Forall_impl;
    [| exact (catalog_shape Extra.catalogDeno "GET" start _ _ _ eq_refl eq_refl)].
  intros p [[Hc [_ [_ [Hn _]]]] _]. now split.
Defined.

End HandlerFacts.

(** ** The catalog on the page *)

Module CatalogFacts.

Import Page Controls.

Lemma filter_all {A} (f : A -> bool) l :
  Forall (fun x => f x = true) l -> filter f l = l.
Proof. induction 1 as [|x l Hx _ IH]; [reflexivity |]. simpl. now rewrite Hx, IH. Qed.

Lemma filter_nothing {A} (f : A -> bool) l :
  Forall (fun x => f x = false) l -> filter f l = [].
Proof. induction 1 as [|x l Hx _ IH]; [reflexivity |]. simpl. now rewrite Hx. Qed.

Lemma stablePartition_none {A} (f : A -> bool) l :
  Forall (fun x => f x = false) l -> Spec.stablePartition f l = l.
Proof.
  intros H. unfold Spec.stablePartition. rewrite (filter_nothing f l H).
  simpl. apply filter_all. eapply Forall_impl; [| exact H].
  intros x Hx. simpl in Hx. now rewrite Hx.
Qed.

(** On a product list in which no product is new and every category is
    "t-shirts" (what the handler sends): the key "newest" leaves the
    filtered list in the order it has; the page loaded without a category
    in the URL, with an empty one, or with "t-shirts" shows the whole list
    in its order; loaded with any other category it shows nothing. *)
Theorem placeholders_on_page (ps : list Product) (af : ActiveFilters) (c : string)
  (Hps : Forall (fun p => isNew p = false /\ category p = "t-shirts") ps) :
  let loaded categoryParam :=
    runEffect (fetchProducts (Responded {| ok := true; json := Some ps |})
                 (initial categoryParam)) in
  filterSort ps af "newest" = applyFilters af ps
  /\ filteredProducts (loaded None) = ps
  /\ filteredProducts (loaded (Some "")) = ps
  /\ filteredProducts (loaded (Some "t-shirts")) = ps
  /\ (c <> "" -> c <> "t-shirts" -> filteredProducts (loaded (Some c)) = []).
Proof.
  assert (Hnew : forall l, incl l ps -> Spec.stablePartition isNew l = l).
  { intros l Hl. apply stablePartition_none, Forall_forall. intros p Hp.
    rewrite Forall_forall in Hps. exact (proj1 (Hps p (Hl p Hp))). }
  assert (Hsort : forall l, incl l ps -> applySort "newest" l = l).
  { intros l Hl. rewrite <- (Hnew l Hl) at 2. apply PageFacts.sort_newest. }
  cbv zeta. split; [| split; [| split; [| split]]].
  - unfold filterSort. apply Hsort, PageFacts.applyFilters_incl.
  - cbn. apply (Hsort ps), incl_refl.
  - cbn. apply (Hsort ps), incl_refl.
  - cbn [filteredProducts runEffect fetchProducts initial initialFilters products
         activeFilters sortBy ok json negb String.eqb Ascii.eqb Bool.eqb].
    unfold filterSort. rewrite Hsort by apply PageFacts.applyFilters_incl.
    unfold applyFilters, filterSizes, filterPrices, filterCategories.
    cbn [categories prices af_sizes List.length Nat.ltb Nat.leb].
    apply filter_all, Forall_forall. intros p Hp.
    rewrite Forall_forall in Hps. destruct (Hps p Hp) as [_ Hc].
    unfold categoryPredicate. cbn [categories]. now rewrite Hc.
  - intros Hc Hc'.
    assert (initialFilters (Some c)
            = {| categories := [c]; prices := []; af_sizes := [] |}) as Hinit
      by (unfold initialFilters; destruct (String.eqb_spec c "");
          [contradiction | reflexivity]).
    cbn [filteredProducts runEffect fetchProducts initial products
         activeFilters sortBy ok json negb].
    rewrite Hinit. unfold filterSort. rewrite Hsort by apply PageFacts.applyFilters_incl.
    unfold applyFilters, filterSizes, filterPrices, filterCategories.
    cbn [categories prices af_sizes List.length Nat.ltb Nat.leb].
    apply filter_nothing, Forall_forall. intros p Hp.
    rewrite Forall_forall in Hps. destruct (Hps p Hp) as [_ Hcat].
    unfold categoryPredicate. cbn [categories]. rewrite Hcat.
    unfold Js.includes. cbn [existsb].
    destruct (String.eqb_spec "t-shirts" c); [congruence | reflexivity].
Qed.

(** The array the handler sends for the sample catalog, loaded with
    [?category=hoodies]. *)
Lemma placeholders_on_page_witness :
  exists r w' fps,
    Normalizer.serve Extra.catalogDeno "GET" Normalizer.start = (Normalizer.Ok r, w')
    /\ Normalizer.body r = Normalizer.JsonProducts fps
    /\ fps <> []
    /\ filteredProducts
         (runEffect (fetchProducts (Responded {| ok := true; json := Some fps |})
                       (initial (Some "hoodies")))) = [].
Proof.
  eexists. eexists. eexists. split; [reflexivity |]. split; [reflexivity |].
  split; [discriminate |].
  refine (proj2 (proj2 (proj2 (proj2
            (placeholders_on_page _ noFilters "hoodies" _)))) _ _);
    [| discriminate | discriminate].
  repeat constructor.
Defined.

End CatalogFacts.
